(** * WikiRace: link selection and race state

    A shallow embedding of the two pieces of logic of the repository:

    - [decideBestLink] of [src/app/api/stagehand/main.ts], which maps the
      free-text answer of the language model back to one of the links of the
      current page;
    - the race state kept by [src/app/page.tsx]: the updater functions passed
      to [setGameState] by [startGame], [handlePlayerNavigation],
      [fetchSessionData], [endGame] and [generateEndGameCommentary].

    Conventions.  A JavaScript string is the Rocq string of the bytes of its
    UTF-8 encoding; [length] counts its UTF-16 units, and [trim] and the
    class [\s] know the white space of Unicode.  The case mapping of the
    engine follows the tables of Unicode, which are no part of this
    development: link selection and the loop of the agent take it as a
    parameter ([CaseMapping]), while the race page and its frame, which
    compare names of pages, are modelled with the mapping of the ASCII
    letters ([Js.toLowerCase]).  Instants ([Date]) are integers, the
    milliseconds of [getTime()].  The two numbers computed with a
    floating-point division (elapsed seconds, token score) are exact
    rationals.  Everything the code obtains from outside (the clock,
    [Math.random], the answer of a remote call) is a parameter of the
    function that uses it. *)

From Stdlib Require Import List Bool Arith ZArith QArith Qround Lia.
From Stdlib Require Import Ascii String DecimalString.
Import ListNotations.

Close Scope Q_scope.
Open Scope list_scope.
Open Scope string_scope.
Open Scope nat_scope.

(** ** Exceptions *)

(** A computation either returns a value or throws. *)
Inductive Exc (A : Type) : Type :=
| Val (a : A)
| Exn (msg : string).
Arguments Val {A} a.
Arguments Exn {A} msg.

(** [try { body } catch (error) { handler }] *)
Definition try_catch {A : Type} (body : Exc A) (handler : string -> Exc A) : Exc A :=
  match body with
  | Val a => Val a
  | Exn msg => handler msg
  end.

(** ** Strings *)

Module Js.

Definition is_upper (c : ascii) : bool :=
  let n := nat_of_ascii c in (65 <=? n) && (n <=? 90).

Definition is_lower (c : ascii) : bool :=
  let n := nat_of_ascii c in (97 <=? n) && (n <=? 122).

(** The class [\s], which is also what [trim] removes: the white space
    and the line ends of Unicode.  Those of one byte are the tab, the line
    feed, the vertical tab, the form feed, the carriage return and the
    space. *)
Definition is_space (c : ascii) : bool :=
  let n := nat_of_ascii c in ((9 <=? n) && (n <=? 13)) || (n =? 32).

(** of two bytes: U+00A0 *)
Definition is_space2 (a b : ascii) : bool :=
  (nat_of_ascii a =? 194) && (nat_of_ascii b =? 160).

(** of three bytes: U+1680; U+2000 to U+200A, U+2028, U+2029 and U+202F;
    U+205F; U+3000; U+FEFF *)
Definition is_space3 (a b c : ascii) : bool :=
  let x := nat_of_ascii a in
  let y := nat_of_ascii b in
  let z := nat_of_ascii c in
  ((x =? 225) && (y =? 154) && (z =? 128))
  || ((x =? 226) && (y =? 128)
      && (((128 <=? z) && (z <=? 138)) || (z =? 168) || (z =? 169) || (z =? 175)))
  || ((x =? 226) && (y =? 129) && (z =? 159))
  || ((x =? 227) && (y =? 128) && (z =? 128))
  || ((x =? 239) && (y =? 187) && (z =? 191)).

(** what follows the white space character at the head of [s], if [s]
    starts with one *)
Definition behindSpace (s : string) : option string :=
  match s with
  | EmptyString => None
  | String a r1 =>
      if is_space a then Some r1
      else
        match r1 with
        | EmptyString => None
        | String b r2 =>
            if is_space2 a b then Some r2
            else
              match r2 with
              | EmptyString => None
              | String c r3 => if is_space3 a b c then Some r3 else None
              end
        end
  end.

(** [s.length]: the number of UTF-16 units.  A character of four bytes
    takes two units, any other character one; the bytes 128 to 191 continue
    a character. *)
Definition units (c : ascii) : nat :=
  let n := nat_of_ascii c in
  if (128 <=? n) && (n <=? 191) then 0 else if 240 <=? n then 2 else 1.

Fixpoint length (s : string) : nat :=
  match s with
  | EmptyString => 0
  | String c s' => units c + length s'
  end.

Definition lower_char (c : ascii) : ascii :=
  if is_upper c then ascii_of_nat (nat_of_ascii c + 32) else c.

Definition upper_char (c : ascii) : ascii :=
  if is_lower c then ascii_of_nat (nat_of_ascii c - 32) else c.

Fixpoint map_chars (f : ascii -> ascii) (s : string) : string :=
  match s with
  | EmptyString => EmptyString
  | String c s' => String (f c) (map_chars f s')
  end.

(** the case mapping of the ASCII letters *)
Definition toLowerCase (s : string) : string := map_chars lower_char s.
Definition toUpperCase (s : string) : string := map_chars upper_char s.

(** [s.replace(/ /g, '_')] and [s.replace(/_/g, ' ')] *)
Definition spaces_to_underscores (s : string) : string :=
  map_chars (fun c => if Ascii.eqb c " " then "_"%char else c) s.
Definition underscores_to_spaces (s : string) : string :=
  map_chars (fun c => if Ascii.eqb c "_" then " "%char else c) s.

(** [hay.startsWith(needle)] *)
Fixpoint startsWith (needle hay : string) : bool :=
  match needle, hay with
  | EmptyString, _ => true
  | String _ _, EmptyString => false
  | String a n', String b h' => Ascii.eqb a b && startsWith n' h'
  end.

(** [hay.includes(needle)] *)
Fixpoint includes (needle hay : string) : bool :=
  startsWith needle hay ||
  match hay with
  | EmptyString => false
  | String _ h' => includes needle h'
  end.

Fixpoint drop (n : nat) (s : string) : string :=
  match n, s with
  | O, _ => s
  | S _, EmptyString => EmptyString
  | S n', String _ s' => drop n' s'
  end.

(** [s.replace(pat, rep)] with a string pattern: the first occurrence only *)
Fixpoint replace_first (pat rep s : string) : string :=
  if startsWith pat s then (rep ++ drop (String.length pat) s)%string
  else match s with
       | EmptyString => EmptyString
       | String c s' => String c (replace_first pat rep s')
       end.

(** [s.split(sep)] for a non-empty separator; [acc] is the piece being
    read and [skip] the number of characters of a separator still to pass. *)
Fixpoint split_go (sep acc : string) (skip : nat) (s : string) : list string :=
  match s with
  | EmptyString => [acc]
  | String c s' =>
      match skip with
      | S k => split_go sep acc k s'
      | O => if startsWith sep s
             then acc :: split_go sep "" (String.length sep - 1) s'
             else split_go sep (acc ++ String c "")%string 0 s'
      end
  end.

Definition split (sep s : string) : list string := split_go sep "" 0 s.

(** [s.split(/\s+/)]: the pieces between maximal runs of white space.
    [acc] is the piece being read; [in_run] tells whether the last
    character read was white space. *)
Fixpoint split_ws_go (acc : string) (in_run : bool) (s : string) : list string :=
  match s with
  | EmptyString => [acc]
  | String a r1 =>
      if is_space a
      then if in_run then split_ws_go acc true r1 else acc :: split_ws_go "" true r1
      else
        match r1 with
        | EmptyString => split_ws_go (acc ++ String a "")%string false r1
        | String b r2 =>
            if is_space2 a b
            then if in_run then split_ws_go acc true r2 else acc :: split_ws_go "" true r2
            else
              match r2 with
              | EmptyString => split_ws_go (acc ++ String a "")%string false r1
              | String c r3 =>
                  if is_space3 a b c
                  then if in_run then split_ws_go acc true r3
                       else acc :: split_ws_go "" true r3
                  else split_ws_go (acc ++ String a "")%string false r1
              end
        end
  end.

Definition split_ws (s : string) : list string := split_ws_go "" false s.

Fixpoint trimStart (s : string) : string :=
  match s with
  | EmptyString => EmptyString
  | String a r1 =>
      if is_space a then trimStart r1
      else
        match r1 with
        | EmptyString => s
        | String b r2 =>
            if is_space2 a b then trimStart r2
            else
              match r2 with
              | EmptyString => s
              | String c r3 => if is_space3 a b c then trimStart r3 else s
              end
        end
  end.

(** nothing but white space *)
Definition blank (s : string) : bool := String.eqb (trimStart s) "".

(** [trimEnd]: the text is cut where nothing but white space follows *)
Fixpoint trimEnd (s : string) : string :=
  match s with
  | EmptyString => EmptyString
  | String c s' => if blank s then EmptyString else String c (trimEnd s')
  end.

Definition trim (s : string) : string := trimEnd (trimStart s).

Fixpoint take (n : nat) (s : string) : string :=
  match n, s with
  | O, _ => EmptyString
  | S _, EmptyString => EmptyString
  | S n', String c s' => String c (take n' s')
  end.

(** [s.charAt(0)]: the first UTF-16 unit of [s], as a string.  The first
    unit of a character of four bytes is half of a surrogate pair, which is
    no character: the answer is [None] then. *)
Definition charAt0 (s : string) : option string :=
  match s with
  | EmptyString => Some EmptyString
  | String c _ =>
      let n := nat_of_ascii c in
      if n <? 192 then Some (take 1 s)
      else if n <? 224 then Some (take 2 s)
      else if n <? 240 then Some (take 3 s)
      else None
  end.

(** the truth value of a string *)
Definition truthy (s : string) : bool := negb (String.eqb s "").

End Js.

(** ** Numbers *)

(** [a < b] on rationals, as a boolean *)
Definition Qlt_bool (a b : Q) : bool := negb (Qle_bool b a).

(** [xs[i]] for a number [i] that is an integer: [None] is [undefined] *)
Definition at_index {A : Type} (xs : list A) (i : Z) : option A :=
  if (i <? 0)%Z then None else nth_error xs (Z.to_nat i).

(** [Math.floor(random * n)], where [random] is what [Math.random()] returned *)
Definition floor_random (random : Q) (n : nat) : Z :=
  Qfloor (random * inject_Z (Z.of_nat n)).

(** ** The case mapping

    [toLowerCase] and [toUpperCase] as the engine has them.  Nothing is
    assumed of them: what is proved of a function that takes a case mapping
    holds whatever the mapping is. *)
Record CaseMapping : Type := mkCaseMapping {
  toLowerCase : string -> string;
  toUpperCase : string -> string
}.

(** the mapping that knows the ASCII letters only *)
Definition asciiCase : CaseMapping := mkCaseMapping Js.toLowerCase Js.toUpperCase.

(** ** Link selection ([src/app/api/stagehand/main.ts]) *)

Record Link : Type := mkLink { text : string; href : string }.

(** The chat completion: given the system and the user message, the call
    throws (the request fails, or [choices[0]] is missing), or yields
    [message.content], which may be [null]. *)
Definition Reasoner : Type := string -> string -> Exc (option string).

Definition dquote : string := String (ascii_of_nat 34) EmptyString.
Definition newline : string := String (ascii_of_nat 10) EmptyString.

Definition formatLink (link : Link) : string :=
  "- " ++ text link ++ " (" ++ href link ++ ")".

Definition systemContent (targetTopic : string) : string :=
  "You are an AI assistant helping navigate a Wikipedia race. Your task is to analyze links on the current page and determine which one is most likely to lead closer to the target page "
  ++ dquote ++ targetTopic ++ dquote ++ "." ++ newline ++ newline ++
  "You must return ONLY the exact text of the link you recommend clicking, with no additional content, explanation, or formatting."
  ++ newline ++ newline ++
  "Make strategic choices based on:" ++ newline ++
  "1. Direct relevance to the target topic" ++ newline ++
  "2. Broader categories that might contain the target" ++ newline ++
  "3. Related fields or concepts that could lead to the target" ++ newline ++
  "4. Historical, geographical, or thematic connections".

Definition userContent (currentPageTitle targetTopic formattedLinks : string) : string :=
  newline ++
  "I'm currently on the Wikipedia page " ++ dquote ++ currentPageTitle ++ dquote ++ "." ++ newline ++
  "My target is to reach the page about " ++ dquote ++ targetTopic ++ dquote ++ "." ++ newline ++ newline ++
  "Here are available links on the current page:" ++ newline ++ newline ++
  formattedLinks ++ newline ++ newline ++
  "Which ONE link should I click that would most likely lead me closer to "
  ++ dquote ++ targetTopic ++ dquote ++
  "? Return ONLY the exact text of the best link to click, nothing else.".

(** tier 1: [links.find(link => link.text === bestLinkText)] *)
Definition exactMatch (bestLinkText : string) (links : list Link) : option Link :=
  find (fun link => String.eqb (text link) bestLinkText) links.

(** tier 2: containment either way, or equality up to case *)
Definition fuzzyMatch (u : CaseMapping) (bestLinkText : string) (links : list Link)
  : option Link :=
  find (fun link =>
          Js.includes bestLinkText (text link)
          || Js.includes (text link) bestLinkText
          || String.eqb (toLowerCase u (text link)) (toLowerCase u bestLinkText))
       links.

(** the words of the answer: [bestLinkText.toLowerCase().split(/\s+/)] *)
Definition answerWords (u : CaseMapping) (bestLinkText : string) : list string :=
  Js.split_ws (toLowerCase u bestLinkText).

(** [bestLinkWords.filter(word => linkText.includes(word)).length /
    bestLinkWords.length].  The list of words is never empty, so the
    quotient is a number. *)
Definition score (u : CaseMapping) (bestLinkWords : list string) (link : Link) : Q :=
  let linkText := toLowerCase u (text link) in
  Z.of_nat (List.length (filter (fun word => Js.includes word linkText) bestLinkWords))
  # Pos.of_nat (List.length bestLinkWords).

(** [linkScores.sort((a, b) => b.score - a.score)]: the sort is stable, so
    an entry stays in front of the later entries of the same score. *)
Fixpoint insertByScore (x : Link * Q) (sorted : list (Link * Q)) : list (Link * Q) :=
  match sorted with
  | [] => [x]
  | y :: rest =>
      if Qlt_bool (snd x) (snd y) then y :: insertByScore x rest
      else x :: y :: rest
  end.

Definition sortByScore (linkScores : list (Link * Q)) : list (Link * Q) :=
  fold_right insertByScore [] linkScores.

(** tier 3: the best token overlap, when it exceeds one half.  Reading
    [linkScores[0].score] of an empty array throws. *)
Definition tokenMatch (u : CaseMapping) (bestLinkText : string) (links : list Link)
  : Exc (option Link) :=
  let bestLinkWords := answerWords u bestLinkText in
  let linkScores := map (fun link => (link, score u bestLinkWords link)) links in
  match sortByScore linkScores with
  | [] => Exn "TypeError"
  | (link, s) :: _ => if Qlt_bool (1 # 2) s then Val (Some link) else Val None
  end.

(** the body of the [try] once the answer is there *)
Definition matchAnswer (u : CaseMapping) (links : list Link) (content : option string)
  : Exc (option Link) :=
  match option_map Js.trim content with
  | None => Val (nth_error links 0)
  | Some bestLinkText =>
      if negb (Js.truthy bestLinkText) then Val (nth_error links 0)
      else
        match exactMatch bestLinkText links with
        | Some bestLink => Val (Some bestLink)
        | None =>
            match fuzzyMatch u bestLinkText links with
            | Some bestLink => Val (Some bestLink)
            | None =>
                match tokenMatch u bestLinkText links with
                | Exn e => Exn e
                | Val (Some bestLink) => Val (Some bestLink)
                | Val None => Val (nth_error links 0)
                end
            end
        end
  end.

(** the [catch] block: a random link among the long or capitalised ones.
    Upper-casing leaves half of a surrogate pair as it is. *)
Definition fallbackLink (u : CaseMapping) (links : list Link) (random : Q) : option Link :=
  let potentialGoodLinks :=
    filter (fun link =>
              (10 <? Js.length (text link))
              || match Js.charAt0 (text link) with
                 | Some first => String.eqb (toUpperCase u first) first
                 | None => true
                 end)
           links in
  let fallbackLinks :=
    if 0 <? List.length potentialGoodLinks then potentialGoodLinks else links in
  at_index fallbackLinks (floor_random random (List.length fallbackLinks)).

(** the request: at most 75 links are shown to the model *)
Definition askReasoner (openai : Reasoner) (links : list Link)
  (targetPage currentPageTitle : string) : Exc (option string) :=
  let linkSample := if 75 <? List.length links then firstn 75 links else links in
  let formattedLinks := String.concat newline (map formatLink linkSample) in
  let targetTopic := Js.underscores_to_spaces targetPage in
  openai (systemContent targetTopic)
         (userContent currentPageTitle targetTopic formattedLinks).

Definition decideBestLink (u : CaseMapping) (openai : Reasoner) (links : list Link)
  (targetPage currentPageTitle : string) (random : Q) : Exc (option Link) :=
  if List.length links =? 0 then Val None
  else
    try_catch
      (match askReasoner openai links targetPage currentPageTitle with
       | Exn e => Exn e
       | Val content => matchAnswer u links content
       end)
      (fun _ => Val (fallbackLink u links random)).

(** ** Race state ([src/app/page.tsx]) *)

Inductive Status : Type := NotStarted | InProgress | Completed.
Inductive Winner : Type := Player | Ai.
Inductive Rating : Type := Cooked | Cracked | Mid.

Record PlayerPath : Type := mkStep {
  url : string;
  title : string;
  timestamp : Z
}.

Record GameResult : Type := mkResult {
  winner : Winner;
  playerClicks : nat;
  aiClicks : nat;
  playerTime : Q;
  aiTime : Q;
  commentary : string;
  rating : Rating
}.

Record GameStateType : Type := mkGame {
  status : Status;
  startPage : string;
  targetPage : string;
  playerPath : list PlayerPath;
  aiPath : list PlayerPath;
  startTime : option Z;
  endTime : option Z;
  result : option GameResult
}.

Definition initialGameState : GameStateType :=
  mkGame NotStarted "" "" [] [] None None None.

Definition Status_eqb (a b : Status) : bool :=
  match a, b with
  | NotStarted, NotStarted | InProgress, InProgress | Completed, Completed => true
  | _, _ => false
  end.

(** milliseconds to seconds: [ms / 1000] *)
Definition seconds (ms : Z) : Q := ms # 1000.

(** the arguments of [generateEndGameCommentary] *)
Record EndGameRequest : Type := mkRequest {
  reqWinner : Winner;
  reqPlayerClicks : nat;
  reqAiClicks : nat;
  reqPlayerTime : Q;
  reqAiTime : Q;
  reqPlayerPath : list string;
  reqAiPath : list string;
  reqTargetPage : string
}.

(** the arguments of [generateAICommentary] *)
Record StepCommentaryRequest : Type := mkStepRequest {
  currentPage : string;
  commentaryTarget : string;
  previousPages : list string
}.

(** [endGame]: has the agent, has the player, reached the target? *)
Definition aiReachedTarget (prev : GameStateType) : bool :=
  existsb (fun step =>
             String.eqb (Js.spaces_to_underscores (title step)) (targetPage prev)
             || Js.includes ("/wiki/" ++ targetPage prev) (url step))
          (aiPath prev).

Definition playerReachedTarget (prev : GameStateType) : bool :=
  existsb (fun step => String.eqb (Js.spaces_to_underscores (title step)) (targetPage prev))
          (playerPath prev).

(** [endGame]: the winner *)
Definition determineWinner (reason : string) (prev : GameStateType) : Winner :=
  if String.eqb reason "ai-won" then Ai
  else if aiReachedTarget prev && negb (playerReachedTarget prev) then Ai
  else if playerReachedTarget prev && negb (aiReachedTarget prev) then Player
  else if aiReachedTarget prev && playerReachedTarget prev then
         if List.length (playerPath prev) <=? List.length (aiPath prev) then Player else Ai
  else Player.

Definition playerTimeAt (now : Z) (prev : GameStateType) : Q :=
  match startTime prev with
  | Some t0 => seconds (now - t0)
  | None => 0%Q
  end.

(** [prev.startTime!.getTime()] throws when [startTime] is [null] *)
Definition aiTimeAt (now : Z) (prev : GameStateType) : Exc Q :=
  match last (map Some (aiPath prev)) None with
  | Some lastStep =>
      match startTime prev with
      | Some t0 => Val (seconds (timestamp lastStep - t0))
      | None => Exn "TypeError"
      end
  | None => Val (playerTimeAt now prev)
  end.

(** The updater of [endGame].  [now] is the clock read for [playerTime],
    [ended] the one read for [endTime].  It also returns the call of
    [generateEndGameCommentary] it makes. *)
Definition endGameUpdate (reason : string) (now ended : Z) (prev : GameStateType)
  : Exc (GameStateType * EndGameRequest) :=
  let winner := determineWinner reason prev in
  let playerTime := playerTimeAt now prev in
  match aiTimeAt now prev with
  | Exn e => Exn e
  | Val aiTime =>
      let tempResult :=
        mkResult winner (List.length (playerPath prev)) (List.length (aiPath prev))
                 playerTime aiTime "generating commentary..." Mid in
      Val (mkGame Completed (startPage prev) (targetPage prev) (playerPath prev)
                  (aiPath prev) (startTime prev) (Some ended) (Some tempResult),
           mkRequest winner (List.length (playerPath prev)) (List.length (aiPath prev))
                     playerTime aiTime (map title (playerPath prev))
                     (map title (aiPath prev)) (targetPage prev))
  end.

(** The two updaters of [generateEndGameCommentary]: the reply arrived, or
    the request failed. *)
Definition commentaryReceived (dataCommentary : string) (dataRating : Rating)
  (prev : GameStateType) : GameStateType :=
  match result prev with
  | Some r =>
      mkGame (status prev) (startPage prev) (targetPage prev) (playerPath prev)
             (aiPath prev) (startTime prev) (endTime prev)
             (Some (mkResult (winner r) (playerClicks r) (aiClicks r) (playerTime r)
                             (aiTime r) dataCommentary dataRating))
  | None => prev
  end.

Definition commentaryFailed (winner0 : Winner) (prev : GameStateType) : GameStateType :=
  match result prev with
  | Some r =>
      mkGame (status prev) (startPage prev) (targetPage prev) (playerPath prev)
             (aiPath prev) (startTime prev) (endTime prev)
             (Some (mkResult (winner r) (playerClicks r) (aiClicks r) (playerTime r)
                             (aiTime r)
                             (match winner0 with
                              | Player => "you beat the ai! not bad for a human 👏"
                              | Ai => "better luck next time 😂 ai wins again"
                              end)
                             (match winner0 with Player => Cracked | Ai => Cooked end)))
  | None => prev
  end.

(** The updater of [handlePlayerNavigation], with the call of
    [generateAICommentary] it makes, if any. *)
Definition handlePlayerNavigation (url0 title0 : string) (now : Z) (prev : GameStateType)
  : GameStateType * option StepCommentaryRequest :=
  let urlExists := existsb (fun item => String.eqb (url item) url0) (playerPath prev) in
  if urlExists then (prev, None)
  else
    let updatedPath := (playerPath prev ++ [mkStep url0 title0 now])%list in
    (mkGame (status prev) (startPage prev) (targetPage prev) updatedPath
            (aiPath prev) (startTime prev) (endTime prev) (result prev),
     if (2 <=? List.length updatedPath) && Status_eqb (status prev) InProgress
     then Some (mkStepRequest title0 (targetPage prev) (map title updatedPath))
     else None).

(** [fetchSessionData]: [currentPage.url.split('/wiki/')[1]] *)
Definition currentPagePathOf (url0 : string) : option string :=
  nth_error (Js.split "/wiki/" url0) 1.

Definition isTargetReached (url0 pageTitle normalizedTargetPage : string) : bool :=
  let currentPagePath := currentPagePathOf url0 in
  match currentPagePath with
  | Some p => String.eqb p normalizedTargetPage
  | None => false
  end
  || String.eqb (Js.spaces_to_underscores pageTitle) normalizedTargetPage
  || match currentPagePath with
     | Some p =>
         Js.truthy p && Js.truthy normalizedTargetPage
         && String.eqb (Js.toLowerCase p) (Js.toLowerCase normalizedTargetPage)
     | None => false
     end.

(** The updater of [fetchSessionData] that adds the observed page to the
    path of the agent.  The boolean tells whether it sets the timer
    [setTimeout(() => endGame('ai-won'), 1000)]. *)
Definition addToAiPath (url0 pageTitle : string) (now : Z) (prev : GameStateType)
  : GameStateType * bool :=
  let urlExists := existsb (fun item => String.eqb (url item) url0) (aiPath prev) in
  if negb urlExists then
    let newPath := (aiPath prev ++ [mkStep url0 pageTitle now])%list in
    (mkGame (status prev) (startPage prev) (targetPage prev) (playerPath prev)
            newPath (startTime prev) (endTime prev) (result prev),
     isTargetReached url0 pageTitle (targetPage prev) && negb (playerReachedTarget prev))
  else (prev, false).

(** ** The page component

    The race state together with the other state of [Home] that the race
    operations read or write.  Two fields stand for work in flight: the
    timers set by [setTimeout(() => endGame('ai-won'), 1000)] and the
    requests sent by [generateEndGameCommentary].  State that only drives
    the display (status badge of the agent, step commentary bubble, the
    inputs of the start form, the warning) is left out. *)

Record Config : Type := mkConfig {
  env : string;
  hasLLMCredentials : bool;
  hasBrowserbaseCredentials : bool
}.

Record Home : Type := mkHome {
  gameState : GameStateType;
  isCommentaryLoading : bool;
  config : option Config;
  running : bool;
  debugUrl : option string;
  error : option string;
  sessionId : option string;
  lastKnownUrl : option string;
  aiWonTimers : nat;
  endGameRequests : list EndGameRequest
}.

Definition initialHome : Home :=
  mkHome initialGameState false None false None None None None 0 [].

Definition setGameState (gs : GameStateType) (h : Home) : Home :=
  mkHome gs (isCommentaryLoading h) (config h) (running h) (debugUrl h) (error h)
         (sessionId h) (lastKnownUrl h) (aiWonTimers h) (endGameRequests h).

Definition setIsCommentaryLoading (b : bool) (h : Home) : Home :=
  mkHome (gameState h) b (config h) (running h) (debugUrl h) (error h)
         (sessionId h) (lastKnownUrl h) (aiWonTimers h) (endGameRequests h).

Definition setConfig (c : Config) (h : Home) : Home :=
  mkHome (gameState h) (isCommentaryLoading h) (Some c) (running h) (debugUrl h) (error h)
         (sessionId h) (lastKnownUrl h) (aiWonTimers h) (endGameRequests h).

Definition setRunning (b : bool) (h : Home) : Home :=
  mkHome (gameState h) (isCommentaryLoading h) (config h) b (debugUrl h) (error h)
         (sessionId h) (lastKnownUrl h) (aiWonTimers h) (endGameRequests h).

Definition setDebugUrl (u : string) (h : Home) : Home :=
  mkHome (gameState h) (isCommentaryLoading h) (config h) (running h) (Some u) (error h)
         (sessionId h) (lastKnownUrl h) (aiWonTimers h) (endGameRequests h).

Definition setError (msg : string) (h : Home) : Home :=
  mkHome (gameState h) (isCommentaryLoading h) (config h) (running h) (debugUrl h) (Some msg)
         (sessionId h) (lastKnownUrl h) (aiWonTimers h) (endGameRequests h).

Definition setSessionId (sid : string) (h : Home) : Home :=
  mkHome (gameState h) (isCommentaryLoading h) (config h) (running h) (debugUrl h) (error h)
         (Some sid) (lastKnownUrl h) (aiWonTimers h) (endGameRequests h).

Definition setLastKnownUrl (u : option string) (h : Home) : Home :=
  mkHome (gameState h) (isCommentaryLoading h) (config h) (running h) (debugUrl h) (error h)
         (sessionId h) u (aiWonTimers h) (endGameRequests h).

Definition setAiWonTimers (n : nat) (h : Home) : Home :=
  mkHome (gameState h) (isCommentaryLoading h) (config h) (running h) (debugUrl h) (error h)
         (sessionId h) (lastKnownUrl h) n (endGameRequests h).

Definition setEndGameRequests (rs : list EndGameRequest) (h : Home) : Home :=
  mkHome (gameState h) (isCommentaryLoading h) (config h) (running h) (debugUrl h) (error h)
         (sessionId h) (lastKnownUrl h) (aiWonTimers h) rs.

(** [endGame(reason)]: throws when its updater does *)
Definition endGame (reason : string) (now ended : Z) (h : Home) : Exc Home :=
  let h := setLastKnownUrl None (setRunning false h) in
  if String.eqb reason "error" then Val h
  else
    match endGameUpdate reason now ended (gameState h) with
    | Exn e => Exn e
    | Val (gs, request) =>
        Val (setGameState gs
               (setEndGameRequests (request :: endGameRequests h)
                  (setIsCommentaryLoading true h)))
    end.

Fixpoint remove_nth {A : Type} (i : nat) (xs : list A) : list A :=
  match i, xs with
  | _, [] => []
  | O, _ :: rest => rest
  | S i', x :: rest => x :: remove_nth i' rest
  end.

(** [generateEndGameCommentary] after its [await]: the request number [i]
    in flight is answered by [response] (the commentary and the rating of
    the reply, or a failure). *)
Definition endGameCommentaryLanded (i : nat) (response : Exc (string * Rating)) (h : Home)
  : Home :=
  match nth_error (endGameRequests h) i with
  | None => h
  | Some request =>
      let gs :=
        match response with
        | Val (c, r) => commentaryReceived c r (gameState h)
        | Exn _ => commentaryFailed (reqWinner request) (gameState h)
        end in
      setIsCommentaryLoading false
        (setEndGameRequests (remove_nth i (endGameRequests h)) (setGameState gs h))
  end.

Definition wikiPairs : list (string * string) :=
  [ ("Pizza", "Albert_Einstein");
    ("Taylor_Swift", "Quantum_mechanics");
    ("Basketball", "Ancient_Rome");
    ("Coffee", "Moon_landing");
    ("TikTok", "Dinosaur") ].

(** [startGame(start, target)] up to its first [await].  Reading
    [randomPair.start] of [undefined] would throw before any update. *)
Definition startGame (start target : string) (random : Q) (now : Z) (h : Home) : Home :=
  match config h with
  | None => h
  | Some _ =>
      let pair :=
        if negb (Js.truthy start) || negb (Js.truthy target)
        then at_index wikiPairs (floor_random random (List.length wikiPairs))
        else Some (start, target) in
      match pair with
      | None => h
      | Some (start, target) =>
          setRunning true
            (setGameState (mkGame InProgress start target [] [] (Some now) None None) h)
      end
  end.

(** What [startGame] waits for. *)
Inductive Awaited : Type :=
| BBSSession (r : Exc (string * string))
| Stagehand (r : Exc unit).

(** the [catch] of [startGame]; [endGame('error')] reads no clock *)
Definition startGameCatch (msg : string) (h : Home) : Exc Home :=
  endGame "error" 0 0 (setError msg h).

(** [startGame] after an [await] *)
Definition startGameResume (a : Awaited) (h : Home) : Exc Home :=
  match a with
  | BBSSession (Val (sid, dbg)) => Val (setSessionId sid (setDebugUrl dbg h))
  | BBSSession (Exn msg) => startGameCatch msg h
  | Stagehand (Val _) => Val h
  | Stagehand (Exn msg) => startGameCatch msg h
  end.

(** the page reported by the session *)
Record SessionPage : Type := mkPage { pageUrl : string; pageTitle : string }.

Fixpoint takeWhile (p : ascii -> bool) (s : string) : string :=
  match s with
  | EmptyString => EmptyString
  | String c s' => if p c then String c (takeWhile p s') else EmptyString
  end.

(** [url.match] with the pattern "/wiki/" followed by a captured run of
    characters other than # and ?: the captured group, if the pattern occurs *)
Fixpoint matchWikiPath (url0 : string) : option string :=
  if Js.startsWith "/wiki/" url0
  then Some (takeWhile (fun c => negb (Ascii.eqb c "#"%char || Ascii.eqb c "?"%char)) (Js.drop 6 url0))
  else match url0 with
       | EmptyString => None
       | String _ rest => matchWikiPath rest
       end.

(** [decodeURIComponent] is a parameter: [None] when it throws *)
Definition extractTitleFromUrl (decodeURIComponent : string -> option string)
  (url0 : string) : string :=
  match matchWikiPath url0 with
  | Some p =>
      if Js.truthy p then
        match decodeURIComponent (Js.underscores_to_spaces p) with
        | Some t => t
        | None => "Unknown Page"
        end
      else "Unknown Page"
  | None => "Unknown Page"
  end.

(** the title that [fetchSessionData] gives to the page it has seen *)
Definition observedTitle (decodeURIComponent : string -> option string)
  (currentPage : SessionPage) : string :=
  let pageTitle0 := Js.replace_first " - Wikipedia" "" (pageTitle currentPage) in
  if negb (Js.truthy pageTitle0)
  then extractTitleFromUrl decodeURIComponent (pageUrl currentPage)
  else pageTitle0.

(** [fetchSessionData] once the response is there.  [seenLastKnownUrl] is
    the value of [lastKnownUrl] that the closure holds; [pages] is
    [data.pages], [None] when the request failed. *)
Definition fetchSessionData (decodeURIComponent : string -> option string)
  (seenLastKnownUrl : option string) (pages : option (list SessionPage)) (now : Z)
  (h : Home) : Home :=
  match pages with
  | None => h
  | Some pages =>
      match last (map Some pages) None with
      | None => h
      | Some currentPage =>
          if match seenLastKnownUrl with
             | Some u => String.eqb (pageUrl currentPage) u
             | None => false
             end
          then h
          else
            let h := setLastKnownUrl (Some (pageUrl currentPage)) h in
            if Js.includes "wikipedia.org/wiki/" (pageUrl currentPage) then
              let pageTitle0 := Js.replace_first " - Wikipedia" "" (pageTitle currentPage) in
              let pageTitle0 :=
                if negb (Js.truthy pageTitle0)
                then extractTitleFromUrl decodeURIComponent (pageUrl currentPage)
                else pageTitle0 in
              let update :=
                addToAiPath (pageUrl currentPage) pageTitle0 now (gameState h) in
              setAiWonTimers (if snd update then S (aiWonTimers h) else aiWonTimers h)
                (setGameState (fst update) h)
            else h
      end
  end.

(** What the page renders of [error]: nothing while the configuration is
    loading, and otherwise the message sits in the view of a race that has
    not started. *)
Definition errorShown (h : Home) : option string :=
  match config h with
  | None => None
  | Some _ =>
      match status (gameState h) with
      | NotStarted => error h
      | _ => None
      end
  end.

(** ** Runs of the page

    One step is one event handled by the page.  [startGame] resumes after an
    [await] only if it got that far, so the race has left [not-started].
    The frame of the player is mounted once the race is in progress, and a
    load of the frame that is under way when the race ends still reports
    its navigation and its arrival: the updaters run on the state they find,
    which has left [not-started] and may be completed.  The session is
    polled only once there is a session; a timer fires only if it was
    set. *)
Inductive step : Home -> Home -> Prop :=
| step_config (c : Config) (h : Home) :
    step h (setConfig c h)
| step_start (start target : string) (random : Q) (now : Z) (h : Home) :
    step h (startGame start target random now h)
| step_resume (a : Awaited) (h h' : Home) :
    status (gameState h) <> NotStarted ->
    startGameResume a h = Val h' ->
    step h h'
| step_navigation (url0 title0 : string) (now : Z) (h : Home) :
    status (gameState h) <> NotStarted ->
    step h (setGameState (fst (handlePlayerNavigation url0 title0 now (gameState h))) h)
| step_target (now ended : Z) (h h' : Home) :
    status (gameState h) <> NotStarted ->
    endGame "completed" now ended h = Val h' ->
    step h h'
| step_poll (decodeURIComponent : string -> option string) (seen : option string)
    (pages : option (list SessionPage)) (now : Z) (h : Home) :
    sessionId h <> None ->
    step h (fetchSessionData decodeURIComponent seen pages now h)
| step_timer (now ended : Z) (h h' : Home) :
    0 < aiWonTimers h ->
    endGame "ai-won" now ended (setAiWonTimers (pred (aiWonTimers h)) h) = Val h' ->
    step h h'
| step_commentary (i : nat) (response : Exc (string * Rating)) (h : Home) :
    i < List.length (endGameRequests h) ->
    step h (endGameCommentaryLanded i response h).

Inductive reachable : Home -> Prop :=
| reachable_initial : reachable initialHome
| reachable_step (h h' : Home) : reachable h -> step h h' -> reachable h'.

(** [run h h']: the page gets from [h] to [h'] in some number of steps *)
Inductive run : Home -> Home -> Prop :=
| run_done (h : Home) : run h h
| run_step (h h' h'' : Home) : run h h' -> step h' h'' -> run h h''.

(** ** Invariants of the runs *)

(** no URL occurs twice in a path *)
Definition pathsDistinct (gs : GameStateType) : Prop :=
  NoDup (map url (playerPath gs)) /\ NoDup (map url (aiPath gs)).

(** A race that has left [not-started] has a start time, and both a session
    and a pending timer presuppose such a race. *)
Definition raceStarted (h : Home) : Prop :=
  (status (gameState h) <> NotStarted -> startTime (gameState h) <> None)
  /\ (sessionId h <> None -> status (gameState h) <> NotStarted)
  /\ (0 < aiWonTimers h -> status (gameState h) <> NotStarted).

(** the race has begun: it has left [not-started] and has a start time *)
Definition begun (gs : GameStateType) : Prop :=
  status gs <> NotStarted /\ startTime gs <> None.

(** the verdict of a result: everything but the commentary and the rating *)
Definition sameVerdict (r r' : GameResult) : Prop :=
  winner r' = winner r
  /\ playerClicks r' = playerClicks r
  /\ aiClicks r' = aiClicks r
  /\ playerTime r' = playerTime r
  /\ aiTime r' = aiTime r.

(** what a state holds of the outcome: nothing before the end, and after it
    a result that counts no more steps than the paths have *)
Definition outcomeKept (gs : GameStateType) : Prop :=
  (status gs <> Completed -> result gs = None /\ endTime gs = None)
  /\ (status gs = Completed ->
        exists r, result gs = Some r /\ endTime gs <> None
                  /\ playerClicks r <= List.length (playerPath gs)
                  /\ aiClicks r <= List.length (aiPath gs)).

(** ** A sample race

    From Pizza to Albert Einstein.  The agent is seen on the target at
    2000 ms, which sets the timer of [endGame('ai-won')]; the player gets
    there at 2500 ms and the frame ends the race at 2600 ms, before the
    timer fires. *)

Definition sampleConfig : Config := mkConfig "BROWSERBASE" true true.

Definition einsteinUrl : string := "https://en.wikipedia.org/wiki/Albert_Einstein".

Definition raceConfigured : Home := setConfig sampleConfig initialHome.

Definition raceBegun : Home := startGame "Pizza" "Albert_Einstein" 0 1000 raceConfigured.

Definition raceWithSession : Home :=
  setSessionId "session-1" (setDebugUrl "https://debug.example/session-1" raceBegun).

Definition agentArrived : Home :=
  fetchSessionData Some None
    (Some [mkPage einsteinUrl "Albert Einstein - Wikipedia"]) 2000 raceWithSession.

Definition playerArrived : Home :=
  setGameState
    (fst (handlePlayerNavigation einsteinUrl "Albert Einstein" 2500 (gameState agentArrived)))
    agentArrived.

Definition valueOr {A : Type} (default : A) (x : Exc A) : A :=
  match x with
  | Val a => a
  | Exn _ => default
  end.

Definition raceOver : Home :=
  valueOr playerArrived (endGame "completed" 2600 2600 playerArrived).

(** The agent is seen on the redirect page Einstein while it loads, with
    no title yet, then on Physics, then on Einstein again, whose title is
    now that of the target. *)
Definition redirectUrl : string := "https://en.wikipedia.org/wiki/Einstein".

Definition physicsUrl : string := "https://en.wikipedia.org/wiki/Physics".

Definition agentSeenLoading : Home :=
  fetchSessionData Some None (Some [mkPage redirectUrl ""]) 1500 raceWithSession.

Definition agentSeenElsewhere : Home :=
  fetchSessionData Some (Some redirectUrl)
    (Some [mkPage physicsUrl "Physics - Wikipedia"]) 1700 agentSeenLoading.

Definition agentSeenBack : Home :=
  fetchSessionData Some (Some physicsUrl)
    (Some [mkPage redirectUrl "Albert Einstein - Wikipedia"]) 1900 agentSeenElsewhere.

(** A load of the frame that was under way when the race ended reports its
    page at 2700 ms. *)
Definition italyUrl : string := "https://en.wikipedia.org/wiki/Italy".

Definition lateNavigation : Home :=
  setGameState (fst (handlePlayerNavigation italyUrl "Italy" 2700 (gameState raceOver)))
    raceOver.

(** The session of the sample race cannot be started. *)
Definition setupFailed : Home :=
  valueOr raceBegun (startGameResume (BBSSession (Exn "session could not start")) raceBegun).

(** A case mapping that knows one letter beyond ASCII: the capital E with
    acute accent, of the bytes 195 and 137, becomes the small one, of the
    bytes 195 and 169. *)
Fixpoint lowerAccentedE (s : string) : string :=
  match s with
  | EmptyString => EmptyString
  | String a rest =>
      match rest with
      | EmptyString => String (Js.lower_char a) EmptyString
      | String b rest' =>
          if (nat_of_ascii a =? 195) && (nat_of_ascii b =? 137)
          then String a (String (ascii_of_nat 169) (lowerAccentedE rest'))
          else String (Js.lower_char a) (lowerAccentedE rest)
      end
  end.

Definition accentCase : CaseMapping := mkCaseMapping lowerAccentedE Js.toUpperCase.

Definition sampleLinks : list Link :=
  [ mkLink "Albert Einstein Award" "/wiki/Albert_Einstein_Award";
    mkLink "Italy" "/wiki/Italy";
    mkLink "Albert Einstein" "/wiki/Albert_Einstein" ].

(** ** Collecting the links of a page ([src/app/api/stagehand/main.ts]) *)

(** an [a] element of the document: its text and its [href] attribute *)
Record Anchor : Type := mkAnchor {
  textContent : option string;
  hrefAttribute : option string
}.

(** [document.querySelectorAll('a[href^="/wiki/"]')], of the anchors of the
    document in document order *)
Definition selectWikiAnchors (document : list Anchor) : list Anchor :=
  filter (fun el =>
            match hrefAttribute el with
            | Some h => Js.startsWith "/wiki/" h
            | None => false
            end)
         document.

(** [x || default] for a string that may be missing *)
Definition orElse (x : option string) (default : string) : string :=
  match x with
  | Some s => if Js.truthy s then s else default
  | None => default
  end.

Definition orEmpty (x : option string) : string := orElse x "".

Definition linkOfAnchor (el : Anchor) : Link :=
  mkLink (orEmpty (option_map Js.trim (textContent el))) (orEmpty (hrefAttribute el)).

Definition is_digit (c : ascii) : bool :=
  let n := nat_of_ascii c in (48 <=? n) && (n <=? 57).

(** the rest of a citation marker: digits, then the closing bracket at the
    end of the text; [seen] tells whether a digit was read *)
Fixpoint digitsThenClose (seen : bool) (s : string) : bool :=
  match s with
  | EmptyString => false
  | String c rest =>
      if is_digit c then digitsThenClose true rest
      else seen && Ascii.eqb c "]" && String.eqb rest ""
  end.

(** [text.match] of a citation marker, an opening bracket, one digit or
    more, a closing bracket *)
Definition isCitationMarker (s : string) : bool :=
  match s with
  | EmptyString => false
  | String c rest => Ascii.eqb c "[" && digitsThenClose false rest
  end.

(** the filter of [getWikipediaLinks] *)
Definition isArticleLink (link : Link) : bool :=
  Js.includes "/wiki/" (href link)
  && negb (Js.includes ":" (href link))
  && negb (Js.includes "File:" (href link))
  && negb (Js.includes "Special:" (href link))
  && negb (Js.includes "Wikipedia:" (href link))
  && negb (Js.includes "Help:" (href link))
  && negb (Js.includes "Template:" (href link))
  && negb (Js.includes "Category:" (href link))
  && negb (Js.includes "Portal:" (href link))
  && negb (Js.includes "Talk:" (href link))
  && negb (Js.includes "Main Page" (href link))
  && (1 <? Js.length (text link))
  && negb (isCitationMarker (text link)).

(** [getWikipediaLinks], of the anchors that [page.evaluate] sees *)
Definition getWikipediaLinks (document : list Anchor) : list Link :=
  filter isArticleLink (map linkOfAnchor (selectWikiAnchors document)).

(** ** The navigation loop of the agent ([main] of [main.ts])

    The browser, the chat completion and [Math.random] make up a world that
    every call may change.  A call returns a value or throws, and leaves a
    world behind in both cases. *)

Module AgentScript.

Definition Call (World A : Type) : Type := World -> Exc A * World.

Definition ret {World A : Type} (a : A) : Call World A := fun w => (Val a, w).

Definition bind {World A B : Type} (m : Call World A) (k : A -> Call World B)
  : Call World B :=
  fun w =>
    match m w with
    | (Val a, w') => k a w'
    | (Exn e, w') => (Exn e, w')
    end.

(** [try { m } catch { handler }] *)
Definition catch {World A : Type} (m handler : Call World A) : Call World A :=
  fun w =>
    match m w with
    | (Val a, w') => (Val a, w')
    | (Exn _, w') => handler w'
    end.

(** What the script uses of its [page], of the OpenAI client and of
    [Math]: [anchors] is the document that [page.evaluate] reads, and
    [afterDecision] the world once [decideBestLink] is through.  The case
    mapping of the engine is the parameter [u] of the functions below. *)
Record Page (World : Type) : Type := mkPage {
  goto : string -> Call World unit;
  title : Call World string;
  url : World -> string;
  anchors : Call World (list Anchor);
  goBack : Call World unit;
  act : string -> Call World unit;
  waitForLoadState : Call World unit;
  openai : World -> Reasoner;
  random : World -> Q;
  afterDecision : World -> World
}.
Arguments goto {World}.
Arguments title {World}.
Arguments url {World}.
Arguments anchors {World}.
Arguments goBack {World}.
Arguments act {World}.
Arguments waitForLoadState {World}.
Arguments openai {World}.
Arguments random {World}.
Arguments afterDecision {World}.

Record WikiRaceParams : Type := mkParams {
  startPage : string;
  targetPage : string
}.

(** how one pass through the body of the loop ends: with [break] after
    [targetReached = true], or with the path it leaves *)
Inductive Pass : Type :=
| Reached
| Next (path : list string).

Definition decideBestLinkOn {World : Type} (u : CaseMapping) (page : Page World)
  (links : list Link) (targetPage0 currentPageTitle : string) : Call World (option Link) :=
  fun w =>
    match decideBestLink u (openai page w) links targetPage0 currentPageTitle (random page w) with
    | Val best => (Val best, afterDecision page w)
    | Exn e => (Exn e, afterDecision page w)
    end.

(** the title of the new page goes on the path *)
Definition pushNewTitle {World : Type} (page : Page World) (path : list string)
  : Call World Pass :=
  bind (waitForLoadState page) (fun _ =>
  bind (title page) (fun newPageTitle =>
  ret (Next (path ++ [Js.replace_first " - Wikipedia" "" newPageTitle])%list))).

(** [await page.goBack(); path.pop()] *)
Definition backtrack {World : Type} (page : Page World) (path : list string)
  : Call World Pass :=
  bind (goBack page) (fun _ => ret (Next (removelast path))).

(** the [try] block of the loop *)
Definition tryBlock {World : Type} (u : CaseMapping) (page : Page World)
  (targetPage0 : string) (path : list string) : Call World Pass :=
  bind (title page) (fun currentPageTitle =>
  fun w =>
    let currentUrl := url page w in
    (if Js.includes (Js.underscores_to_spaces (toLowerCase u targetPage0))
                    (toLowerCase u currentPageTitle)
        || Js.includes (toLowerCase u targetPage0) (toLowerCase u currentUrl)
     then ret Reached
     else
       bind (anchors page) (fun document =>
       let links := getWikipediaLinks document in
       if List.length links =? 0 then backtrack page path
       else
         bind (decideBestLinkOn u page links targetPage0 currentPageTitle) (fun bestLink =>
         match bestLink with
         | Some bestLink =>
             bind (act page ("click the link to " ++ dquote ++ text bestLink ++ "." ++ dquote))
                  (fun _ => pushNewTitle page path)
         | None => backtrack page path
         end))) w).

(** the [catch] block of the loop: a general [act], else a step back, else
    nothing *)
Definition recovery {World : Type} (page : Page World) (targetPage0 : string)
  (path : list string) : Call World Pass :=
  catch
    (bind (act page ("find and click a link that might lead to "
                     ++ Js.underscores_to_spaces targetPage0))
          (fun _ => pushNewTitle page path))
    (catch (backtrack page path) (ret (Next path))).

Definition pass {World : Type} (u : CaseMapping) (page : Page World) (targetPage0 : string)
  (path : list string) : Call World Pass :=
  catch (tryBlock u page targetPage0 path) (recovery page targetPage0 path).

(** What the loop leaves: [targetReached], the path and [maxAttempts]. *)
Record Outcome : Type := mkOutcome {
  targetReached : bool;
  finalPath : list string;
  attemptsLeft : nat
}.

(** [while (!targetReached && maxAttempts > 0)]: every pass that does not
    [break] takes one from [maxAttempts], at the [continue] or at the end
    of the body *)
Fixpoint navigate {World : Type} (u : CaseMapping) (page : Page World)
  (targetPage0 : string) (maxAttempts : nat) (path : list string) : Call World Outcome :=
  match maxAttempts with
  | O => ret (mkOutcome false path 0)
  | S remaining =>
      fun w =>
        match pass u page targetPage0 path w with
        | (Val Reached, w') => (Val (mkOutcome true path maxAttempts), w')
        | (Val (Next path'), w') => navigate u page targetPage0 remaining path' w'
        | (Exn e, w') => (Exn e, w')
        end
  end.

(** the report at the end: was the target reached, the path, and the
    number of clicks, [path.length - 1] *)
Record Report : Type := mkReport {
  success : bool;
  pathTaken : list string;
  clicks : Z
}.

Definition main {World : Type} (u : CaseMapping) (page : Page World)
  (gameParams : option WikiRaceParams) : Call World Report :=
  let startPage0 := orElse (option_map startPage gameParams) "Pizza" in
  let targetPage0 := orElse (option_map targetPage gameParams) "Albert_Einstein" in
  bind (goto page ("https://en.wikipedia.org/wiki/" ++ startPage0)) (fun _ =>
  bind (navigate u page targetPage0 15 [startPage0]) (fun outcome =>
  ret (mkReport (targetReached outcome) (finalPath outcome)
                (Z.of_nat (List.length (finalPath outcome)) - 1)))).

End AgentScript.

(** a call that does not break and, if it returns, leaves a path at most
    one entry longer *)
Definition grows_by_one {World : Type} (path : list string)
  (r : Exc AgentScript.Pass * World) : Prop :=
  match fst r with
  | Val AgentScript.Reached => False
  | Val (AgentScript.Next path') => List.length path' <= S (List.length path)
  | Exn _ => True
  end.

(** ** The frame of the player ([WikiFrame], [src/unnamed/part_002]) *)

Module WikiFrame.

(** what a load of the frame tells the page: the call of [onNavigation], if
    any, whether [onTargetReached] is called, and the flag
    [isInitialLoad.current] it leaves *)
Record Loaded : Type := mkLoaded {
  navigation : option (string * string);
  targetReached : bool;
  isInitialLoad : bool
}.

(** the block of [loadWikipediaContent] that runs once the content of the
    page is in the frame *)
Definition contentShown (startPage targetPage : string) (isInitialLoad0 : bool)
  (url dataTitle : string) : Loaded :=
  mkLoaded
    (if negb isInitialLoad0 || negb (Js.includes ("/wiki/" ++ startPage) url)
     then Some (url, dataTitle) else None)
    (Js.includes (Js.toLowerCase targetPage) (Js.toLowerCase url)
     || Js.includes (Js.underscores_to_spaces (Js.toLowerCase targetPage))
                    (Js.toLowerCase dataTitle))
    false.

(** [loadWikipediaContent] after its [await]s.  [reply] is the title in the
    answer of the proxy and whether its html has an element [#content],
    [None] when the request failed; [mounted] tells whether
    [contentRef.current] is there. *)
Definition loadWikipediaContent (startPage targetPage : string) (isInitialLoad0 : bool)
  (mounted : bool) (url : string) (reply : option (string * bool)) : Loaded :=
  match reply with
  | Some (dataTitle, hasContent) =>
      if mounted && hasContent
      then contentShown startPage targetPage isInitialLoad0 url dataTitle
      else mkLoaded None false isInitialLoad0
  | None => mkLoaded None false isInitialLoad0
  end.

(** the links of the page that the frame takes over *)
Definition interceptsLink (href0 : option string) : bool :=
  match href0 with
  | Some h =>
      Js.truthy h
      && Js.startsWith "/wiki/" h
      && negb (Js.includes ":" h)
      && negb (Js.includes "File:" h)
      && negb (Js.includes "Special:" h)
      && negb (Js.includes "Wikipedia:" h)
      && negb (Js.includes "Help:" h)
      && negb (Js.includes "Template:" h)
      && negb (Js.includes "Category:" h)
      && negb (Js.includes "Portal:" h)
      && negb (Js.includes "Talk:" h)
  | None => false
  end.

(** the URL that a click on such a link loads *)
Definition clickedUrl (href0 : string) : string := "https://en.wikipedia.org" ++ href0.

End WikiFrame.

(** [Home] hands [handlePlayerNavigation] and [() => endGame()] to the
    frame: what a load of the frame does to the page.  [visited] is the
    clock read for the step, [now] and [ended] those read by [endGame]. *)
Definition frameLoaded (visited now ended : Z) (loaded : WikiFrame.Loaded) (h : Home)
  : Exc Home :=
  let h :=
    match WikiFrame.navigation loaded with
    | Some (url0, title0) =>
        setGameState (fst (handlePlayerNavigation url0 title0 visited (gameState h))) h
    | None => h
    end in
  if WikiFrame.targetReached loaded then endGame "completed" now ended h else Val h.

(** ** The proxy of the frame ([src/app/api/proxy/route.ts]) *)

Module ProxyRoute.

(** the answer of [fetch]: [text] is what [response.text()] gives *)
Record Response : Type := mkResponse {
  ok : bool;
  status : nat;
  statusText : string;
  text : Exc string
}.

Inductive Body : Type :=
| ErrorBody (error : string)
| PageBody (url title html : string).

Record Reply : Type := mkReply {
  replyStatus : nat;
  replyBody : Body
}.

(** the line ends U+2028 and U+2029, of three bytes *)
Definition lineSeparator : string :=
  String (ascii_of_nat 226) (String (ascii_of_nat 128) (String (ascii_of_nat 168) "")).
Definition paragraphSeparator : string :=
  String (ascii_of_nat 226) (String (ascii_of_nat 128) (String (ascii_of_nat 169) "")).

(** a lazy run of characters other than line ends, up to [close] *)
Fixpoint lazyUntil (close : string) (s : string) : option string :=
  if Js.startsWith close s then Some ""
  else match s with
       | EmptyString => None
       | String c rest =>
           if Ascii.eqb c (ascii_of_nat 10) || Ascii.eqb c (ascii_of_nat 13)
              || Js.startsWith lineSeparator s || Js.startsWith paragraphSeparator s
           then None
           else option_map (String c) (lazyUntil close rest)
       end.

(** [html.match] of the title element: the captured group of the first
    match, if there is one *)
Fixpoint matchTitle (html : string) : option string :=
  match (if Js.startsWith "<title>" html
         then lazyUntil "</title>" (Js.drop 7 html) else None) with
  | Some captured => Some captured
  | None =>
      match html with
      | EmptyString => None
      | String _ rest => matchTitle rest
      end
  end.

Definition titleOf (html : string) : string :=
  match matchTitle html with
  | Some captured => Js.replace_first " - Wikipedia" "" captured
  | None => ""
  end.

Definition decimal (n : nat) : string := NilEmpty.string_of_uint (Nat.to_uint n).

(** [NextResponse.json(body, { status })]: the constructor of the response
    throws for a status outside 200 to 599, and for a status that allows no
    body: 204, 205 and 304 *)
Definition jsonReply (status0 : nat) (body : Body) : Exc Reply :=
  if (status0 <? 200) || (599 <? status0) then Exn "RangeError"
  else if (status0 =? 204) || (status0 =? 205) || (status0 =? 304) then Exn "TypeError"
  else Val (mkReply status0 body).

(** [GET]: [url] is the parameter of the request *)
Definition GET (fetch : string -> Exc Response) (url : option string) : Reply :=
  match url with
  | None => mkReply 400 (ErrorBody "URL parameter is required")
  | Some url =>
      if negb (Js.truthy url) then mkReply 400 (ErrorBody "URL parameter is required")
      else
        match
          (if negb (Js.startsWith "https://en.wikipedia.org/" url)
           then Val (mkReply 400 (ErrorBody "Only Wikipedia URLs are allowed"))
           else
             match fetch url with
             | Exn e => Exn e
             | Val response =>
                 if negb (ok response)
                 then jsonReply (status response)
                        (ErrorBody ("Failed to fetch from Wikipedia: "
                                    ++ decimal (status response) ++ " "
                                    ++ statusText response))
                 else
                   match text response with
                   | Exn e => Exn e
                   | Val html => Val (mkReply 200 (PageBody url (titleOf html) html))
                   end
             end)
        with
        | Val reply => reply
        | Exn _ => mkReply 500 (ErrorBody "Failed to fetch content")
        end
  end.

End ProxyRoute.

(** ** The judge of the race ([/api/endgame-commentary], the second route of
    [src/app/api/proxy/route.ts]) *)

Module EndgameCommentary.

(** the rating of [POST] *)
Definition ratingOf (request : EndGameRequest) : Rating :=
  match reqWinner request with
  | Player =>
      if (reqPlayerClicks request <? reqAiClicks request)
         || ((reqPlayerClicks request =? reqAiClicks request)
             && Qlt_bool (reqPlayerTime request) (reqAiTime request))
      then Cracked else Mid
  | Ai =>
      if (Z.of_nat (reqAiClicks request) <? Z.of_nat (reqPlayerClicks request) - 2)%Z
      then Cooked else Mid
  end.

(** [POST]: [body] is the request as [request.json()] reads it and
    [completion] the content of the reply of the model to the prompt made
    of it, each of which may throw.  The answer is the body of the reply
    with status 200, or the failure with status 500. *)
Definition POST (body : Exc EndGameRequest) (completion : Exc (option string))
  : Exc (string * Rating) :=
  match body with
  | Exn _ => Exn "Failed to generate commentary"
  | Val request =>
      match completion with
      | Exn _ => Exn "Failed to generate commentary"
      | Val content =>
          Val (orElse (option_map Js.trim content) "gg i guess 🤷‍♂️", ratingOf request)
      end
  end.

End EndgameCommentary.

(** ** The search of the start form ([src/app/api/wiki-search/route.ts]) *)

Module WikiSearch.

(** the answer of the search of Wikipedia: the entries 1, 2 and 3 of the
    array, each of which may be missing *)
Record OpenSearch : Type := mkOpenSearch {
  titles : option (list string);
  descriptions : option (list string);
  urls : option (list string)
}.

Record Response : Type := mkResponse {
  ok : bool;
  status : nat;
  json : Exc OpenSearch
}.

Record Result : Type := mkResult {
  title : string;
  description : option string;
  pageName : option string
}.

Record Reply : Type := mkReply {
  replyStatus : nat;
  error : option string;
  results : list Result
}.

Definition orNone (x : option (list string)) : list string :=
  match x with
  | Some xs => xs
  | None => []
  end.

(** [titles.map((title, index) => ...)] from [index] on: reading
    [url.split] of a URL that is not there throws *)
Fixpoint resultsFrom (index : nat) (titles0 descriptions0 urls0 : list string)
  : Exc (list Result) :=
  match titles0 with
  | [] => Val []
  | title0 :: rest =>
      match nth_error urls0 index with
      | None => Exn "TypeError"
      | Some url =>
          match resultsFrom (S index) rest descriptions0 urls0 with
          | Exn e => Exn e
          | Val others =>
              Val (mkResult title0 (nth_error descriptions0 index)
                            (nth_error (Js.split "/wiki/" url) 1) :: others)
          end
      end
  end.

(** [GET]: [q] is the parameter of the request *)
Definition GET (encodeURIComponent : string -> Exc string)
  (fetch : string -> Exc Response) (q : option string) : Reply :=
  match q with
  | None => mkReply 200 None []
  | Some query =>
      if negb (Js.truthy query) || (Js.length (Js.trim query) <? 2)
      then mkReply 200 None []
      else
        match
          (match encodeURIComponent query with
           | Exn e => Exn e
           | Val encoded =>
               let searchUrl :=
                 "https://en.wikipedia.org/w/api.php?action=opensearch&search="
                 ++ encoded ++ "&limit=5&namespace=0&format=json&origin=*" in
               match fetch searchUrl with
               | Exn e => Exn e
               | Val response =>
                   if negb (ok response)
                   then Exn ("Wikipedia API returned "
                             ++ ProxyRoute.decimal (status response))
                   else
                     match json response with
                     | Exn e => Exn e
                     | Val data =>
                         resultsFrom 0 (orNone (titles data)) (orNone (descriptions data))
                                     (orNone (urls data))
                     end
               end
           end)
        with
        | Val results0 => mkReply 200 None results0
        | Exn _ => mkReply 500 (Some "Failed to fetch search results") []
        end
  end.

End WikiSearch.

(** * Properties *)

Open Scope list_scope.

(** ** Link selection *)

Section LinkSelectionFacts.

Variable u : CaseMapping.
Variable openai : Reasoner.

Lemma insertByScore_In (x y : Link * Q) (sorted : list (Link * Q)) :
  In y (insertByScore x sorted) <-> y = x \/ In y sorted.
Proof.
  induction sorted as [|z rest IH]; simpl.
  - intuition congruence.
  - destruct (Qlt_bool (snd x) (snd z)); simpl; rewrite ?IH; intuition congruence.
Qed.

Lemma sortByScore_In (y : Link * Q) (linkScores : list (Link * Q)) :
  In y (sortByScore linkScores) <-> In y linkScores.
Proof.
  induction linkScores as [|x rest IH]; simpl.
  - tauto.
  - rewrite insertByScore_In, IH. intuition congruence.
Qed.

Lemma insertByScore_length (x : Link * Q) (sorted : list (Link * Q)) :
  List.length (insertByScore x sorted) = S (List.length sorted).
Proof.
  induction sorted as [|z rest IH]; simpl; auto.
  destruct (Qlt_bool (snd x) (snd z)); simpl; auto.
Qed.

Lemma sortByScore_length (linkScores : list (Link * Q)) :
  List.length (sortByScore linkScores) = List.length linkScores.
Proof.
  induction linkScores as [|x rest IH]; simpl; auto.
  now rewrite insertByScore_length, IH.
Qed.

(** What tier 3 looks at is an entry [(link, score words link)] of the list. *)
Lemma sorted_head_scored (bestLinkWords : list string) (links : list Link)
  (link : Link) (s : Q) (rest : list (Link * Q)) :
  sortByScore (map (fun l => (l, score u bestLinkWords l)) links) = (link, s) :: rest ->
  In link links /\ s = score u bestLinkWords link.
Proof.
  intros Hs.
  assert (Hin : In (link, s) (sortByScore (map (fun l => (l, score u bestLinkWords l)) links)))
    by (rewrite Hs; now left).
  apply sortByScore_In, in_map_iff in Hin.
  destruct Hin as (l & Heq & Hl). inversion Heq; subst. auto.
Qed.

Lemma tokenMatch_returns (bestLinkText : string) (links : list Link) :
  links <> [] ->
  exists o, tokenMatch u bestLinkText links = Val o /\
            forall link, o = Some link -> In link links.
Proof.
  intros Hne. unfold tokenMatch.
  destruct (sortByScore _) as [|[link s] rest] eqn:Hs.
  - apply (f_equal (@List.length _)) in Hs.
    rewrite sortByScore_length, length_map in Hs.
    destruct links; [congruence | discriminate].
  - apply sorted_head_scored in Hs. destruct Hs as [Hin _].
    destruct (Qlt_bool (1 # 2) s); eexists; split; try reflexivity;
      intros l' Hl'; congruence.
Qed.

Lemma matchAnswer_returns (links : list Link) (content : option string) :
  links <> [] ->
  exists link, matchAnswer u links content = Val (Some link) /\ In link links.
Proof.
  intros Hne.
  assert (Hfirst : exists link, nth_error links 0 = Some link /\ In link links).
  { destruct links as [|l0 rest]; [congruence|]. exists l0. simpl. auto. }
  destruct Hfirst as (l0 & Hl0 & Hin0).
  unfold matchAnswer.
  destruct (option_map Js.trim content) as [t|]; [|rewrite Hl0; eauto].
  destruct (negb (Js.truthy t)); [rewrite Hl0; eauto|].
  destruct (exactMatch t links) as [l|] eqn:He.
  { apply find_some in He. exists l. tauto. }
  destruct (fuzzyMatch u t links) as [l|] eqn:Hf.
  { apply find_some in Hf. exists l. tauto. }
  destruct (tokenMatch_returns t links Hne) as (o & -> & Ho).
  destruct o as [l|]; [exists l; auto | rewrite Hl0; eauto].
Qed.

Lemma floor_random_range (random : Q) (n : nat) :
  (0 <= random)%Q -> (random < 1)%Q -> 0 < n ->
  (0 <= floor_random random n < Z.of_nat n)%Z.
Proof.
  intros H0 H1 Hn. unfold floor_random.
  set (k := inject_Z (Z.of_nat n)).
  assert (Hk : (0 < k)%Q).
  { unfold k. change 0%Q with (inject_Z 0). rewrite <- Zlt_Qlt. lia. }
  split.
  - change 0%Z with (Qfloor (inject_Z 0)). apply Qfloor_resp_le.
    change (inject_Z 0) with 0%Q. apply Qmult_le_0_compat; auto. now apply Qlt_le_weak.
  - rewrite Zlt_Qlt. fold k.
    apply Qle_lt_trans with (random * k)%Q; [apply Qfloor_le|].
    setoid_replace k with (1 * k)%Q at 2 by ring.
    apply Qmult_lt_compat_r; auto.
Qed.

Lemma at_index_in_range {A : Type} (xs : list A) (i : Z) :
  (0 <= i < Z.of_nat (List.length xs))%Z ->
  exists x, at_index xs i = Some x /\ In x xs.
Proof.
  intros Hi. unfold at_index.
  destruct (i <? 0)%Z eqn:Hneg; [apply Z.ltb_lt in Hneg; lia|].
  destruct (nth_error xs (Z.to_nat i)) as [x|] eqn:Hx.
  - exists x. split; auto. eapply nth_error_In; eauto.
  - apply nth_error_None in Hx. lia.
Qed.

Lemma fallbackLink_returns (links : list Link) (random : Q) :
  links <> [] -> (0 <= random)%Q -> (random < 1)%Q ->
  exists link, fallbackLink u links random = Some link /\ In link links.
Proof.
  intros Hne H0 H1. unfold fallbackLink.
  set (good := filter _ links).
  destruct (0 <? List.length good) eqn:Hg.
  - apply Nat.ltb_lt in Hg.
    destruct (at_index_in_range good (floor_random random (List.length good)))
      as (l & Hl & Hin).
    { now apply floor_random_range. }
    exists l. split; auto. unfold good in Hin. apply filter_In in Hin. tauto.
  - apply at_index_in_range, floor_random_range; auto.
    destruct links; [congruence | simpl; lia].
Qed.

(** C6. [decideBestLink] never throws: whatever the chat completion does
    (throws, answers nothing, answers a text that matches no link), it
    returns; it returns [null] exactly when the list of links is empty, and
    otherwise one of the links it was given.  [random] is the value of
    [Math.random()], a number of the interval [0, 1). *)
Theorem decideBestLink_total (links : list Link) (targetPage0 currentPageTitle : string)
  (random : Q) :
  (0 <= random)%Q -> (random < 1)%Q ->
  exists v, decideBestLink u openai links targetPage0 currentPageTitle random = Val v
            /\ (v = None <-> links = [])
            /\ (forall link, v = Some link -> In link links).
Proof.
  intros H0 H1. unfold decideBestLink.
  destruct links as [|l0 rest].
  - exists None. simpl. repeat split; auto; discriminate.
  - set (links := l0 :: rest).
    assert (Hne : links <> []) by discriminate.
    replace (List.length links =? 0) with false by reflexivity.
    destruct (askReasoner _ _ _ _) as [content|e]; simpl try_catch.
    + destruct (matchAnswer_returns links content Hne) as (l & -> & Hin).
      exists (Some l). split; [reflexivity|]. split.
      * split; [discriminate | intros; contradiction].
      * intros l' Hl'. injection Hl' as <-. exact Hin.
    + destruct (fallbackLink_returns links random Hne H0 H1) as (l & -> & Hin).
      exists (Some l). split; [reflexivity|]. split.
      * split; [discriminate | intros; contradiction].
      * intros l' Hl'. injection Hl' as <-. exact Hin.
Qed.

Lemma exactMatch_finds (bestLinkText : string) (links : list Link) (link : Link) :
  In link links -> text link = bestLinkText ->
  exists best, exactMatch bestLinkText links = Some best
               /\ In best links /\ text best = bestLinkText.
Proof.
  intros Hin Heq. unfold exactMatch.
  destruct (find _ links) as [best|] eqn:Hf.
  - apply find_some in Hf. destruct Hf as [Hb Ht]. apply String.eqb_eq in Ht. eauto.
  - apply (find_none _ _ Hf) in Hin. apply String.eqb_neq in Hin. contradiction.
Qed.

Lemma truthy_nonempty (s : string) : s <> "" -> Js.truthy s = true.
Proof.
  intros H. unfold Js.truthy. apply negb_true_iff, String.eqb_neq. exact H.
Qed.

Lemma matchAnswer_answered (links : list Link) (content : string) :
  Js.trim content <> "" ->
  matchAnswer u links (Some content) =
  match exactMatch (Js.trim content) links with
  | Some bestLink => Val (Some bestLink)
  | None =>
      match fuzzyMatch u (Js.trim content) links with
      | Some bestLink => Val (Some bestLink)
      | None =>
          match tokenMatch u (Js.trim content) links with
          | Exn e => Exn e
          | Val (Some bestLink) => Val (Some bestLink)
          | Val None => Val (nth_error links 0)
          end
      end
  end.
Proof.
  intros Hne. unfold matchAnswer. cbn [option_map].
  now rewrite (truthy_nonempty _ Hne).
Qed.

(** C7. The answer, as the code reads it, is the trimmed content of the
    reply, and an empty answer is dealt with before any matching.  When this
    answer is equal to the text of some link, [decideBestLink] returns the
    first link with exactly that text, whatever the other links are: the
    containment and token tiers are not consulted. *)
Theorem exact_match_precedence (links : list Link) (targetPage0 currentPageTitle : string)
  (random : Q) (content : string) (link : Link) :
  askReasoner openai links targetPage0 currentPageTitle = Val (Some content) ->
  Js.trim content <> "" ->
  In link links ->
  text link = Js.trim content ->
  exists best,
    decideBestLink u openai links targetPage0 currentPageTitle random = Val (Some best)
    /\ exactMatch (Js.trim content) links = Some best
    /\ In best links
    /\ text best = Js.trim content.
Proof.
  intros Hask Hne Hin Htext.
  destruct (exactMatch_finds _ _ _ Hin Htext) as (best & Hbest & Hb & Ht).
  exists best. repeat split; auto.
  unfold decideBestLink.
  destruct links as [|l0 rest]; [contradiction|].
  replace (List.length (l0 :: rest) =? 0) with false by reflexivity.
  rewrite Hask, (matchAnswer_answered _ _ Hne), Hbest. reflexivity.
Qed.

(** the score exceeds one half when more than half of the words are found *)
Lemma score_above_half (bestLinkWords : list string) (link : Link) :
  Qlt_bool (1 # 2) (score u bestLinkWords link)
  = (List.length bestLinkWords
     <? 2 * List.length (filter (fun word => Js.includes word (toLowerCase u (text link)))
                                bestLinkWords)).
Proof.
  unfold score, Qlt_bool, Qle_bool. cbv zeta. cbn [Qnum Qden].
  set (found := List.length (filter _ bestLinkWords)).
  assert (Hfound : found <= List.length bestLinkWords) by apply filter_length_le.
  destruct (List.length bestLinkWords) as [|n] eqn:Hn.
  - replace found with 0 by lia. reflexivity.
  - assert (E : Z.pos (Pos.of_nat (S n)) = Z.of_nat (S n)).
    { rewrite <- (positive_nat_Z (Pos.of_nat (S n))), Nat2Pos.id; [reflexivity | discriminate]. }
    rewrite E.
    destruct (Nat.ltb_spec (S n) (2 * found)).
    + apply negb_true_iff, Z.leb_gt. lia.
    + apply negb_false_iff, Z.leb_le. lia.
Qed.

Lemma tokenMatch_cases (bestLinkText : string) (links : list Link) :
  links <> [] ->
  exists link,
    In link links
    /\ tokenMatch u bestLinkText links
       = if Qlt_bool (1 # 2) (score u (answerWords u bestLinkText) link)
         then Val (Some link) else Val None.
Proof.
  intros Hne. unfold tokenMatch.
  destruct (sortByScore _) as [|[link s] rest] eqn:Hs.
  - apply (f_equal (@List.length _)) in Hs.
    rewrite sortByScore_length, length_map in Hs.
    destruct links; [congruence | discriminate].
  - apply sorted_head_scored in Hs. destruct Hs as [Hin ->]. eauto.
Qed.


End LinkSelectionFacts.

(** ** Recording steps *)

Section PathFacts.

Implicit Types (prev : GameStateType) (path : list PlayerPath).

Lemma urlExists_iff (path : list PlayerPath) (url0 : string) :
  existsb (fun item => String.eqb (url item) url0) path = true
  <-> In url0 (map url path).
Proof.
  rewrite existsb_exists, in_map_iff. split.
  - intros (item & Hin & Heq). apply String.eqb_eq in Heq. eauto.
  - intros (item & Heq & Hin). exists item. split; auto. now apply String.eqb_eq.
Qed.

Lemma urlExists_after_append (path : list PlayerPath) (url0 title0 : string) (now : Z) :
  existsb (fun item => String.eqb (url item) url0) (path ++ [mkStep url0 title0 now]) = true.
Proof.
  rewrite existsb_app. simpl. rewrite String.eqb_refl. apply orb_true_iff. right. reflexivity.
Qed.

Lemma append_fresh_url_NoDup (path : list PlayerPath) (url0 title0 : string) (now : Z) :
  NoDup (map url path) ->
  existsb (fun item => String.eqb (url item) url0) path = false ->
  NoDup (map url (path ++ [mkStep url0 title0 now])).
Proof.
  intros Hnd Hfresh. rewrite map_app. simpl.
  apply NoDup_app; auto.
  - constructor; [intros []|constructor].
  - intros u Hin [<-|[]].
    apply urlExists_iff in Hin. congruence.
Qed.

Lemma handlePlayerNavigation_playerPath (url0 title0 : string) (now : Z) prev :
  playerPath (fst (handlePlayerNavigation url0 title0 now prev)) =
  if existsb (fun item => String.eqb (url item) url0) (playerPath prev)
  then playerPath prev
  else playerPath prev ++ [mkStep url0 title0 now].
Proof.
  unfold handlePlayerNavigation. now destruct (existsb _ _).
Qed.

Lemma handlePlayerNavigation_frame (url0 title0 : string) (now : Z) prev :
  let gs := fst (handlePlayerNavigation url0 title0 now prev) in
  status gs = status prev /\ startPage gs = startPage prev
  /\ targetPage gs = targetPage prev /\ aiPath gs = aiPath prev
  /\ startTime gs = startTime prev /\ endTime gs = endTime prev
  /\ result gs = result prev.
Proof.
  unfold handlePlayerNavigation. destruct (existsb _ _); simpl; repeat split.
Qed.

Lemma addToAiPath_aiPath (url0 pageTitle0 : string) (now : Z) prev :
  aiPath (fst (addToAiPath url0 pageTitle0 now prev)) =
  if existsb (fun item => String.eqb (url item) url0) (aiPath prev)
  then aiPath prev
  else aiPath prev ++ [mkStep url0 pageTitle0 now].
Proof.
  unfold addToAiPath. now destruct (existsb _ _).
Qed.

Lemma addToAiPath_frame (url0 pageTitle0 : string) (now : Z) prev :
  let gs := fst (addToAiPath url0 pageTitle0 now prev) in
  status gs = status prev /\ startPage gs = startPage prev
  /\ targetPage gs = targetPage prev /\ playerPath gs = playerPath prev
  /\ startTime gs = startTime prev /\ endTime gs = endTime prev
  /\ result gs = result prev.
Proof.
  unfold addToAiPath. destruct (existsb _ _); simpl; repeat split.
Qed.

(** C9. A second notification of the same URL changes nothing: the state
    after two calls of [handlePlayerNavigation] with one URL is the state
    after the first, so the path of the player has the same length. *)
Theorem handlePlayerNavigation_idempotent (url0 title1 title2 : string) (now1 now2 : Z) prev :
  let once := fst (handlePlayerNavigation url0 title1 now1 prev) in
  let twice := fst (handlePlayerNavigation url0 title2 now2 once) in
  twice = once
  /\ List.length (playerPath twice) = List.length (playerPath once).
Proof.
  cbv zeta.
  assert (H : fst (handlePlayerNavigation url0 title2 now2
                     (fst (handlePlayerNavigation url0 title1 now1 prev)))
              = fst (handlePlayerNavigation url0 title1 now1 prev)).
  { unfold handlePlayerNavigation at 1.
    rewrite handlePlayerNavigation_playerPath.
    destruct (existsb _ (playerPath prev)) eqn:Hseen.
    - now rewrite Hseen.
    - now rewrite urlExists_after_append. }
  now rewrite H.
Qed.

End PathFacts.

(** ** What each operation does to the race state *)

Section OperationFacts.

Implicit Types (prev gs : GameStateType) (h : Home).

Lemma endGameUpdate_Val (reason : string) (now ended : Z) prev gs (request : EndGameRequest) :
  endGameUpdate reason now ended prev = Val (gs, request) ->
  status gs = Completed
  /\ startPage gs = startPage prev /\ targetPage gs = targetPage prev
  /\ playerPath gs = playerPath prev /\ aiPath gs = aiPath prev
  /\ startTime gs = startTime prev /\ endTime gs = Some ended
  /\ exists r, result gs = Some r
               /\ winner r = determineWinner reason prev
               /\ playerClicks r = List.length (playerPath prev)
               /\ aiClicks r = List.length (aiPath prev)
               /\ playerTime r = playerTimeAt now prev
               /\ aiTimeAt now prev = Val (aiTime r)
               /\ commentary r = "generating commentary..."%string
               /\ rating r = Mid.
Proof.
  unfold endGameUpdate. destruct (aiTimeAt now prev) as [t|e] eqn:Ht; [|discriminate].
  intros H. injection H as <- <-. simpl. repeat split.
  eexists. repeat split.
Qed.

Lemma aiTimeAt_started (now : Z) prev :
  startTime prev <> None -> exists t, aiTimeAt now prev = Val t.
Proof.
  intros Hst. unfold aiTimeAt.
  destruct (last _ None); [|eauto].
  destruct (startTime prev); [eauto | congruence].
Qed.

Lemma endGameUpdate_started (reason : string) (now ended : Z) prev :
  startTime prev <> None ->
  exists gs request, endGameUpdate reason now ended prev = Val (gs, request).
Proof.
  intros Hst. unfold endGameUpdate.
  destruct (aiTimeAt_started now prev Hst) as (t & ->). eauto.
Qed.

Lemma endGame_Val (reason : string) (now ended : Z) h h' :
  endGame reason now ended h = Val h' ->
  sessionId h' = sessionId h /\ aiWonTimers h' = aiWonTimers h
  /\ config h' = config h /\ error h' = error h /\ running h' = false
  /\ (gameState h' = gameState h
      \/ exists request,
           endGameUpdate reason now ended (gameState h) = Val (gameState h', request)).
Proof.
  unfold endGame. destruct (String.eqb reason "error").
  - intros H. injection H as <-. simpl. repeat split. now left.
  - cbn [gameState setLastKnownUrl setRunning].
    destruct (endGameUpdate _ _ _ _) as [[gs request]|e] eqn:Hu; [|discriminate].
    intros H. injection H as <-. simpl. repeat split. right. eauto.
Qed.

Lemma startGameCatch_Val (msg : string) h :
  startGameCatch msg h = Val (setLastKnownUrl None (setRunning false (setError msg h))).
Proof. reflexivity. Qed.

Lemma startGameResume_Val (a : Awaited) h h' :
  startGameResume a h = Val h' ->
  gameState h' = gameState h /\ aiWonTimers h' = aiWonTimers h
  /\ (sessionId h' = sessionId h \/ exists sid, a = BBSSession (Val sid)).
Proof.
  destruct a as [[[sid dbg]|msg]|[u|msg]]; simpl;
    rewrite ?startGameCatch_Val; intros H; injection H as <-; simpl;
    repeat split; eauto.
Qed.

Lemma startGame_cases (start target : string) (random : Q) (now : Z) h :
  startGame start target random now h = h
  \/ exists s t,
       startGame start target random now h
       = setRunning true (setGameState (mkGame InProgress s t [] [] (Some now) None None) h).
Proof.
  unfold startGame. destruct (config h); [|now left].
  match goal with
  | |- context [match ?pair with Some _ => _ | None => h end] =>
      destruct pair as [[s t]|]
  end; [right; eauto | now left].
Qed.

Lemma commentaryReceived_frame (c : string) (rt : Rating) prev :
  let gs := commentaryReceived c rt prev in
  status gs = status prev /\ startPage gs = startPage prev
  /\ targetPage gs = targetPage prev /\ playerPath gs = playerPath prev
  /\ aiPath gs = aiPath prev /\ startTime gs = startTime prev
  /\ endTime gs = endTime prev.
Proof.
  unfold commentaryReceived. destruct (result prev); simpl; repeat split.
Qed.

Lemma commentaryFailed_frame (w : Winner) prev :
  let gs := commentaryFailed w prev in
  status gs = status prev /\ startPage gs = startPage prev
  /\ targetPage gs = targetPage prev /\ playerPath gs = playerPath prev
  /\ aiPath gs = aiPath prev /\ startTime gs = startTime prev
  /\ endTime gs = endTime prev.
Proof.
  unfold commentaryFailed. destruct (result prev); simpl; repeat split.
Qed.

Lemma endGameCommentaryLanded_frame (i : nat) (response : Exc (string * Rating)) h :
  let h' := endGameCommentaryLanded i response h in
  status (gameState h') = status (gameState h)
  /\ playerPath (gameState h') = playerPath (gameState h)
  /\ aiPath (gameState h') = aiPath (gameState h)
  /\ startTime (gameState h') = startTime (gameState h)
  /\ sessionId h' = sessionId h /\ aiWonTimers h' = aiWonTimers h.
Proof.
  unfold endGameCommentaryLanded.
  destruct (nth_error _ i) as [request|]; [|cbv zeta; repeat split].
  destruct response as [[c rt]|e]; cbn [gameState sessionId aiWonTimers
    setIsCommentaryLoading setEndGameRequests setGameState].
  - pose proof (commentaryReceived_frame c rt (gameState h)) as H. cbv zeta in H. intuition.
  - pose proof (commentaryFailed_frame (reqWinner request) (gameState h)) as H.
    cbv zeta in H. intuition.
Qed.

(** [fetchSessionData] leaves the race state alone or adds one page to the
    path of the agent. *)
Lemma fetchSessionData_cases (decode : string -> option string) (seen : option string)
  (pages : option (list SessionPage)) (now : Z) h :
  let h' := fetchSessionData decode seen pages now h in
  sessionId h' = sessionId h
  /\ aiWonTimers h <= aiWonTimers h'
  /\ (gameState h' = gameState h
      \/ exists url0 pageTitle0,
           gameState h' = fst (addToAiPath url0 pageTitle0 now (gameState h))).
Proof.
  unfold fetchSessionData.
  destruct pages as [pages|]; [|cbv zeta; auto].
  destruct (last _ None) as [currentPage|]; [|cbv zeta; auto].
  destruct seen as [u|]; [destruct (String.eqb _ u); [cbv zeta; auto|]|];
    (destruct (Js.includes _ _); [|cbv zeta; simpl; auto]);
    cbv zeta; cbn [gameState setLastKnownUrl aiWonTimers sessionId setAiWonTimers setGameState];
    (repeat split; [destruct (snd _); lia | right; eauto]).
Qed.

End OperationFacts.

(** ** Invariants *)

Section RunFacts.

Implicit Types (prev gs : GameStateType) (h : Home).

Lemma pathsDistinct_same_paths gs gs' :
  playerPath gs' = playerPath gs -> aiPath gs' = aiPath gs ->
  pathsDistinct gs -> pathsDistinct gs'.
Proof. unfold pathsDistinct. now intros -> ->. Qed.

Lemma handlePlayerNavigation_distinct (url0 title0 : string) (now : Z) prev :
  pathsDistinct prev ->
  pathsDistinct (fst (handlePlayerNavigation url0 title0 now prev)).
Proof.
  intros [Hp Ha]. split.
  - rewrite handlePlayerNavigation_playerPath.
    destruct (existsb _ _) eqn:Hseen; auto using append_fresh_url_NoDup.
  - pose proof (handlePlayerNavigation_frame url0 title0 now prev) as F.
    cbv zeta in F. destruct F as (_ & _ & _ & -> & _). exact Ha.
Qed.

Lemma addToAiPath_distinct (url0 pageTitle0 : string) (now : Z) prev :
  pathsDistinct prev ->
  pathsDistinct (fst (addToAiPath url0 pageTitle0 now prev)).
Proof.
  intros [Hp Ha]. split.
  - pose proof (addToAiPath_frame url0 pageTitle0 now prev) as F.
    cbv zeta in F. destruct F as (_ & _ & _ & -> & _). exact Hp.
  - rewrite addToAiPath_aiPath.
    destruct (existsb _ _) eqn:Hseen; auto using append_fresh_url_NoDup.
Qed.

Lemma step_pathsDistinct h h' :
  step h h' -> pathsDistinct (gameState h) -> pathsDistinct (gameState h').
Proof.
  intros Hstep Hd. destruct Hstep.
  - exact Hd.
  - destruct (startGame_cases start target random now h) as [-> | (s & t & ->)]; auto.
    split; constructor.
  - apply startGameResume_Val in H0. destruct H0 as (-> & _). exact Hd.
  - now apply handlePlayerNavigation_distinct.
  - apply endGame_Val in H0. destruct H0 as (_ & _ & _ & _ & _ & [-> | (rq & Hu)]); auto.
    apply endGameUpdate_Val in Hu. destruct Hu as (_ & _ & _ & Hp & Ha & _).
    eapply pathsDistinct_same_paths; eauto.
  - destruct (fetchSessionData_cases decodeURIComponent seen pages now h)
      as (_ & _ & [-> | (u & t & ->)]); auto using addToAiPath_distinct.
  - apply endGame_Val in H0. destruct H0 as (_ & _ & _ & _ & _ & [-> | (rq & Hu)]); auto.
    apply endGameUpdate_Val in Hu. destruct Hu as (_ & _ & _ & Hp & Ha & _).
    eapply pathsDistinct_same_paths; eauto.
  - destruct (endGameCommentaryLanded_frame i response h) as (_ & Hp & Ha & _).
    eapply pathsDistinct_same_paths; eauto.
Qed.

Lemma step_raceStarted h h' : step h h' -> raceStarted h -> raceStarted h'.
Proof.
  unfold raceStarted. intros Hstep (Hst & Hsid & Htm). destruct Hstep.
  - auto.
  - destruct (startGame_cases start target random now h) as [-> | (s & t & ->)]; auto.
    simpl. repeat split; intros; discriminate.
  - apply startGameResume_Val in H0. destruct H0 as (-> & -> & Hs).
    repeat split; auto.
  - pose proof (handlePlayerNavigation_frame url0 title0 now (gameState h)) as F.
    cbv zeta in F. destruct F as (Hs & _ & _ & _ & Ht & _). simpl.
    rewrite Hs, Ht. repeat split; auto.
  - apply endGame_Val in H0.
    destruct H0 as (-> & -> & _ & _ & _ & [-> | (rq & Hu)]); auto.
    apply endGameUpdate_Val in Hu. destruct Hu as (-> & _ & _ & _ & _ & -> & _).
    repeat split; intros; try discriminate. apply Hst. exact H.
  - destruct (fetchSessionData_cases decodeURIComponent seen pages now h)
      as (-> & _ & [-> | (u & t & ->)]).
    + repeat split; auto.
    + pose proof (addToAiPath_frame u t now (gameState h)) as F.
      cbv zeta in F. destruct F as (-> & _ & _ & _ & -> & _).
      repeat split; auto.
  - apply endGame_Val in H0. simpl in H0.
    assert (Hs : status (gameState h) <> NotStarted) by auto.
    destruct H0 as (-> & _ & _ & _ & _ & [-> | (rq & Hu)]).
    + repeat split; auto.
    + apply endGameUpdate_Val in Hu. destruct Hu as (-> & _ & _ & _ & _ & -> & _).
      repeat split; intros; try discriminate. auto.
  - destruct (endGameCommentaryLanded_frame i response h)
      as (-> & _ & _ & -> & -> & ->).
    auto.
Qed.

Lemma reachable_raceStarted h : reachable h -> raceStarted h.
Proof.
  induction 1 as [|h h' _ IH Hstep].
  - repeat split; simpl; intros; try congruence; lia.
  - eapply step_raceStarted; eauto.
Qed.

Lemma step_begun h h' : step h h' -> begun (gameState h) -> begun (gameState h').
Proof.
  unfold begun. intros Hstep (Hs & Ht). destruct Hstep.
  - auto.
  - destruct (startGame_cases start target random now h) as [-> | (s & t & ->)]; auto.
    simpl. split; discriminate.
  - apply startGameResume_Val in H0. destruct H0 as (-> & _). auto.
  - pose proof (handlePlayerNavigation_frame url0 title0 now (gameState h)) as F.
    cbv zeta in F. destruct F as (E1 & _ & _ & _ & E2 & _). simpl.
    rewrite E1, E2. auto.
  - apply endGame_Val in H0. destruct H0 as (_ & _ & _ & _ & _ & [-> | (rq & Hu)]); auto.
    apply endGameUpdate_Val in Hu. destruct Hu as (-> & _ & _ & _ & _ & -> & _).
    split; [discriminate | auto].
  - destruct (fetchSessionData_cases decodeURIComponent seen pages now h)
      as (_ & _ & [-> | (u & t & ->)]); auto.
    pose proof (addToAiPath_frame u t now (gameState h)) as F.
    cbv zeta in F. destruct F as (-> & _ & _ & _ & -> & _). auto.
  - apply endGame_Val in H0. simpl in H0.
    destruct H0 as (_ & _ & _ & _ & _ & [-> | (rq & Hu)]); auto.
    apply endGameUpdate_Val in Hu. destruct Hu as (-> & _ & _ & _ & _ & -> & _).
    split; [discriminate | auto].
  - destruct (endGameCommentaryLanded_frame i response h) as (-> & _ & _ & -> & _).
    auto.
Qed.

Lemma run_begun h h' : run h h' -> begun (gameState h) -> begun (gameState h').
Proof.
  induction 1 as [|h h' h'' _ IH Hstep]; auto.
  intros Hb. eapply step_begun; eauto.
Qed.

(** C10. In every state that a run of the page can reach, the URLs of the
    path of the player are pairwise distinct, and so are those of the path
    of the agent: each addition looks for the URL in the whole path. *)
Theorem paths_never_repeat_a_url h :
  reachable h ->
  NoDup (map url (playerPath (gameState h)))
  /\ NoDup (map url (aiPath (gameState h))).
Proof.
  induction 1 as [|h h' _ IH Hstep].
  - split; constructor.
  - exact (step_pathsDistinct h h' Hstep IH).
Qed.

End RunFacts.

(** ** The sample race *)

Example split_wiki :
  Js.split "/wiki/" einsteinUrl = ["https://en.wikipedia.org"; "Albert_Einstein"]%string.
Proof. reflexivity. Qed.

Example split_ws_tokens :
  Js.split_ws "new  york city" = ["new"; "york"; "city"]%string.
Proof. reflexivity. Qed.

Example trim_both : Js.trim "  Albert Einstein " = "Albert Einstein"%string.
Proof. reflexivity. Qed.

(** U+00A0 in front, U+3000 behind *)
Example trim_beyond_ascii :
  Js.trim (String (ascii_of_nat 194) (String (ascii_of_nat 160) "Paris")
           ++ String (ascii_of_nat 227) (String (ascii_of_nat 128)
                (String (ascii_of_nat 128) "")))
  = "Paris"%string.
Proof. reflexivity. Qed.

Example split_ws_beyond_ascii :
  Js.split_ws ("new" ++ String (ascii_of_nat 194) (String (ascii_of_nat 160) "york"))
  = ["new"; "york"]%string.
Proof. reflexivity. Qed.

Example length_in_units :
  Js.length "π" = 1 /\ Js.length "düsseldorf" = 10 /\ Js.length "👏" = 2.
Proof. repeat split. Qed.

(** the answer in capitals finds the link in small letters, by its one word *)
Example tokenMatch_beyond_ascii :
  fuzzyMatch accentCase "ÉCOLE"
    [mkLink "Paris" "/wiki/Paris"; mkLink "école normale" "/wiki/%C3%89cole_normale"]
  = None
  /\ tokenMatch accentCase "ÉCOLE"
       [mkLink "Paris" "/wiki/Paris"; mkLink "école normale" "/wiki/%C3%89cole_normale"]
     = Val (Some (mkLink "école normale" "/wiki/%C3%89cole_normale")).
Proof. split; reflexivity. Qed.

Example extractTitle_sample :
  extractTitleFromUrl Some "https://en.wikipedia.org/wiki/Albert_Einstein#Life"
  = "Albert Einstein"%string.
Proof. reflexivity. Qed.

Example agentArrived_sets_timer :
  aiWonTimers agentArrived = 1
  /\ aiPath (gameState agentArrived) = [mkStep einsteinUrl "Albert Einstein" 2000].
Proof. split; reflexivity. Qed.

Lemma raceWithSession_reachable : reachable raceWithSession.
Proof.
  eapply reachable_step;
    [eapply reachable_step;
       [eapply reachable_step; [apply reachable_initial | apply (step_config sampleConfig)]
       | apply (step_start "Pizza" "Albert_Einstein" 0 1000)]
    | apply (step_resume (BBSSession (Val ("session-1", "https://debug.example/session-1"))%string));
      [discriminate | reflexivity]].
Defined.

Lemma agentArrived_reachable : reachable agentArrived.
Proof.
  eapply reachable_step; [apply raceWithSession_reachable|].
  apply step_poll. discriminate.
Defined.

Lemma playerArrived_reachable : reachable playerArrived.
Proof.
  eapply reachable_step; [apply agentArrived_reachable|].
  apply step_navigation. discriminate.
Defined.

Lemma raceOver_reachable : reachable raceOver.
Proof.
  eapply reachable_step; [apply playerArrived_reachable|].
  apply (step_target 2600 2600); [discriminate | reflexivity].
Defined.

(** ** Ending the race *)

Section OutcomeFacts.

Implicit Types (prev gs : GameStateType) (h : Home).

Lemma determineWinner_tied (reason : string) prev :
  aiReachedTarget prev = true -> playerReachedTarget prev = true ->
  List.length (playerPath prev) = List.length (aiPath prev) ->
  determineWinner reason prev = if String.eqb reason "ai-won" then Ai else Player.
Proof.
  intros Ha Hp Hlen. unfold determineWinner. rewrite Ha, Hp, Hlen, Nat.leb_refl.
  now destruct (String.eqb reason "ai-won").
Qed.

(** The claim C1 fails on the sample race: both paths hold the target and
    have one step each, the agent has the smaller elapsed time (1 s against
    1.6 s), and the player is the winner. *)
Lemma tie_break_by_time_counterexample :
  reachable playerArrived
  /\ aiReachedTarget (gameState playerArrived) = true
  /\ playerReachedTarget (gameState playerArrived) = true
  /\ exists h' r,
       endGame "completed" 2600 2600 playerArrived = Val h'
       /\ result (gameState h') = Some r
       /\ playerClicks r = aiClicks r
       /\ (aiTime r < playerTime r)%Q
       /\ winner r = Player.
Proof.
  split; [apply playerArrived_reachable|].
  split; [reflexivity|]. split; [reflexivity|].
  eexists _, _. split; [reflexivity|]. split; [reflexivity|].
  repeat split.
Qed.

(** C1, amended.  When both paths hold the target and have the same number
    of steps at the end of the race, the elapsed times are not compared: the
    winner is the side whose signal ended the race, the agent when [endGame]
    runs for its timer (reason 'ai-won'), the player otherwise. *)
Theorem tie_goes_to_the_signalling_side (reason : string) (now ended : Z) prev gs
  (request : EndGameRequest) (r : GameResult) :
  endGameUpdate reason now ended prev = Val (gs, request) ->
  result gs = Some r ->
  aiReachedTarget prev = true ->
  playerReachedTarget prev = true ->
  List.length (playerPath prev) = List.length (aiPath prev) ->
  winner r = if String.eqb reason "ai-won" then Ai else Player.
Proof.
  intros Hu Hr Ha Hp Hlen.
  apply endGameUpdate_Val in Hu.
  destruct Hu as (_ & _ & _ & _ & _ & _ & _ & r0 & Hr0 & Hw & _).
  rewrite Hr in Hr0. injection Hr0 as <-.
  rewrite Hw. now apply determineWinner_tied.
Qed.

Lemma tie_goes_to_the_signalling_side_witness :
  winner (mkResult Player 1 1 (1600 # 1000) (1000 # 1000) "generating commentary..." Mid)
  = if String.eqb "completed" "ai-won" then Ai else Player.
Proof.
  apply (tie_goes_to_the_signalling_side "completed" 2600 2600 (gameState playerArrived)
           (gameState raceOver)
           (mkRequest Player 1 1 (1600 # 1000) (1000 # 1000)
                      ["Albert Einstein"%string] ["Albert Einstein"%string]
                      "Albert_Einstein"));
    reflexivity.
Defined.

Lemma endGame_ai_won (now ended : Z) h :
  startTime (gameState h) <> None ->
  exists h' r,
    endGame "ai-won" now ended h = Val h'
    /\ status (gameState h') = Completed
    /\ result (gameState h') = Some r
    /\ winner r = Ai.
Proof.
  intros Hst. unfold endGame. simpl String.eqb. cbn [gameState setLastKnownUrl setRunning].
  destruct (endGameUpdate_started "ai-won" now ended (gameState h) Hst) as (gs & rq & Hu).
  rewrite Hu. apply endGameUpdate_Val in Hu.
  destruct Hu as (Hs & _ & _ & _ & _ & _ & _ & r & Hr & Hw & _).
  eexists _, r. split; [reflexivity|]. simpl. repeat split; auto.
Qed.

(** the two matches that the specification names *)
Lemma isTargetReached_of_match (url0 pageTitle0 target : string) :
  currentPagePathOf url0 = Some target \/ Js.spaces_to_underscores pageTitle0 = target ->
  isTargetReached url0 pageTitle0 target = true.
Proof.
  unfold isTargetReached. intros [-> | ->].
  - now rewrite String.eqb_refl.
  - rewrite String.eqb_refl. now rewrite orb_true_r.
Qed.

(** a page of Wikipedia that the poll has not just seen goes to the updater *)
Lemma fetchSessionData_observed (decode : string -> option string) (seen : option string)
  (pages : list SessionPage) (currentPage : SessionPage) (now : Z) h :
  last (map Some pages) None = Some currentPage ->
  seen <> Some (pageUrl currentPage) ->
  Js.includes "wikipedia.org/wiki/" (pageUrl currentPage) = true ->
  fetchSessionData decode seen (Some pages) now h
  = let update :=
      addToAiPath (pageUrl currentPage) (observedTitle decode currentPage) now (gameState h) in
    setAiWonTimers (if snd update then S (aiWonTimers h) else aiWonTimers h)
      (setGameState (fst update) (setLastKnownUrl (Some (pageUrl currentPage)) h)).
Proof.
  intros Hlast Hseen Hwiki. unfold fetchSessionData. rewrite Hlast.
  assert (Hnew : match seen with
                 | Some u0 => String.eqb (pageUrl currentPage) u0
                 | None => false
                 end = false).
  { destruct seen as [u0|]; [|reflexivity].
    apply String.eqb_neq. intros E. apply Hseen. now rewrite E. }
  rewrite Hnew, Hwiki. reflexivity.
Qed.

(** a pending timer can fire, and ends a race that has begun in favour of
    the agent *)
Lemma timer_fires (fired ended : Z) h :
  begun (gameState h) ->
  0 < aiWonTimers h ->
  exists h' r,
    step h h'
    /\ endGame "ai-won" fired ended (setAiWonTimers (pred (aiWonTimers h)) h) = Val h'
    /\ status (gameState h') = Completed
    /\ result (gameState h') = Some r
    /\ winner r = Ai.
Proof.
  intros [_ Hst] Htimer.
  destruct (endGame_ai_won fired ended (setAiWonTimers (pred (aiWonTimers h)) h) Hst)
    as (h' & r & Hend & Hs & Hr & Hw).
  exists h', r. repeat split; auto.
  eapply step_timer; eauto.
Qed.




(** The claim C4 fails on the sample race: when the commentary request
    fails, the rating of the completed race goes from 'mid' to 'cracked'. *)
Lemma rating_replaced_counterexample :
  reachable raceOver
  /\ status (gameState raceOver) = Completed
  /\ option_map rating (result (gameState raceOver)) = Some Mid
  /\ option_map rating
       (result (gameState (endGameCommentaryLanded 0
                             (Exn "Failed to generate end-game commentary") raceOver)))
     = Some Cracked.
Proof.
  split; [apply raceOver_reachable|]. repeat split.
Qed.

(** C4, amended.  Once the race has a result, recording a step of either
    side leaves the result as it is, and the reply (or the failure) of the
    commentary request keeps the winner, the two step counts and the two
    elapsed times: it replaces the commentary and, with it, the rating. *)
Theorem verdict_survives_later_updates prev (r : GameResult) :
  result prev = Some r ->
  (forall (c : string) (rt : Rating),
      exists r', result (commentaryReceived c rt prev) = Some r'
                 /\ sameVerdict r r' /\ commentary r' = c /\ rating r' = rt)
  /\ (forall w : Winner,
         exists r', result (commentaryFailed w prev) = Some r' /\ sameVerdict r r')
  /\ (forall (url0 title0 : string) (now : Z),
         result (fst (handlePlayerNavigation url0 title0 now prev)) = Some r)
  /\ (forall (url0 pageTitle0 : string) (now : Z),
         result (fst (addToAiPath url0 pageTitle0 now prev)) = Some r).
Proof.
  intros Hr. repeat split.
  - intros c rt. unfold commentaryReceived. rewrite Hr.
    eexists. simpl. repeat split.
  - intros w. unfold commentaryFailed. rewrite Hr.
    eexists. simpl. repeat split.
  - intros url0 title0 now.
    pose proof (handlePlayerNavigation_frame url0 title0 now prev) as F.
    cbv zeta in F. destruct F as (_ & _ & _ & _ & _ & _ & ->). exact Hr.
  - intros url0 pageTitle0 now.
    pose proof (addToAiPath_frame url0 pageTitle0 now prev) as F.
    cbv zeta in F. destruct F as (_ & _ & _ & _ & _ & _ & ->). exact Hr.
Qed.

Lemma verdict_survives_later_updates_witness :
  exists r',
    result (commentaryFailed Player (gameState raceOver)) = Some r'
    /\ sameVerdict
         (mkResult Player 1 1 (1600 # 1000) (1000 # 1000) "generating commentary..." Mid) r'.
Proof.
  apply (proj1 (proj2 (verdict_survives_later_updates (gameState raceOver)
                         (mkResult Player 1 1 (1600 # 1000) (1000 # 1000)
                                   "generating commentary..." Mid)
                         eq_refl))
           Player).
Defined.

(** The timer set for the agent is not cleared when the player ends the
    race first: when it fires, [endGame] runs again on the completed race. *)
Lemma stale_timer_runs_endGame_again :
  0 < aiWonTimers raceOver
  /\ option_map winner (result (gameState raceOver)) = Some Player
  /\ exists h',
       step raceOver h'
       /\ option_map winner (result (gameState h')) = Some Ai.
Proof.
  split; [simpl; lia|]. split; [reflexivity|].
  eexists. split.
  - apply (step_timer 3000 3000); [simpl; lia | reflexivity].
  - reflexivity.
Qed.

End OutcomeFacts.

(** ** Guards *)

Section GuardFacts.

Implicit Types (prev gs : GameStateType) (h : Home).

(** C3. A notification of the frame that comes in after the end of the race
    is recorded.  The sample race was completed by the player, with one step
    in the result; the load of the page Italy was under way then, and when
    it reports, the updater, which looks at the status only to decide on a
    step commentary, appends the step to the path of the completed race. *)
Lemma navigation_after_the_end_is_recorded :
  reachable raceOver
  /\ status (gameState raceOver) = Completed
  /\ List.length (playerPath (gameState raceOver)) = 1
  /\ option_map playerClicks (result (gameState raceOver)) = Some 1
  /\ step raceOver lateNavigation
  /\ status (gameState lateNavigation) = Completed
  /\ playerPath (gameState lateNavigation)
     = playerPath (gameState raceOver) ++ [mkStep italyUrl "Italy" 2700]
  /\ snd (handlePlayerNavigation italyUrl "Italy" 2700 (gameState raceOver)) = None
  /\ option_map playerClicks (result (gameState lateNavigation)) = Some 1.
Proof.
  split; [apply raceOver_reachable|]. do 3 (split; [reflexivity|]).
  split; [apply step_navigation; discriminate|].
  repeat split.
Qed.

(** no step takes a race back to [not-started] *)
Lemma step_status_left h h' :
  step h h' -> status (gameState h) <> NotStarted -> status (gameState h') <> NotStarted.
Proof.
  intros Hstep Hs. destruct Hstep.
  - exact Hs.
  - destruct (startGame_cases start target random now h) as [-> | (s & t & ->)];
      [exact Hs | discriminate].
  - apply startGameResume_Val in H0. destruct H0 as (-> & _). exact Hs.
  - pose proof (handlePlayerNavigation_frame url0 title0 now (gameState h)) as F.
    cbv zeta in F. destruct F as (E & _). simpl. now rewrite E.
  - apply endGame_Val in H0. destruct H0 as (_ & _ & _ & _ & _ & [-> | (rq & Hu)]); auto.
    apply endGameUpdate_Val in Hu. destruct Hu as (-> & _). discriminate.
  - destruct (fetchSessionData_cases decodeURIComponent seen pages now h)
      as (_ & _ & [-> | (u0 & t & ->)]); auto.
    pose proof (addToAiPath_frame u0 t now (gameState h)) as F.
    cbv zeta in F. destruct F as (-> & _). exact Hs.
  - apply endGame_Val in H0. simpl in H0.
    destruct H0 as (_ & _ & _ & _ & _ & [-> | (rq & Hu)]); auto.
    apply endGameUpdate_Val in Hu. destruct Hu as (-> & _). discriminate.
  - destruct (endGameCommentaryLanded_frame i response h) as (-> & _). exact Hs.
Qed.

Lemma fetchSessionData_error (decode : string -> option string) (seen : option string)
  (pages : option (list SessionPage)) (now : Z) h :
  error (fetchSessionData decode seen pages now h) = error h.
Proof.
  unfold fetchSessionData.
  destruct pages as [pages|]; [|reflexivity].
  destruct (last _ None) as [currentPage|]; [|reflexivity].
  destruct seen as [u0|]; [destruct (String.eqb _ u0); [reflexivity|]|];
    destruct (Js.includes _ _); reflexivity.
Qed.

Lemma endGameCommentaryLanded_error (i : nat) (response : Exc (string * Rating)) h :
  error (endGameCommentaryLanded i response h) = error h.
Proof.
  unfold endGameCommentaryLanded. destruct (nth_error _ i); reflexivity.
Qed.

(** an error is only ever set once the race has left [not-started] *)
Lemma step_error_unset h h' :
  step h h' ->
  (status (gameState h) = NotStarted -> error h = None) ->
  (status (gameState h') = NotStarted -> error h' = None).
Proof.
  intros Hstep IH Hs'.
  assert (Hleft : status (gameState h) <> NotStarted -> False).
  { intros Hs. exact (step_status_left h h' Hstep Hs Hs'). }
  assert (Hs : status (gameState h) = NotStarted).
  { destruct (status (gameState h)); [reflexivity | |]; exfalso; apply Hleft; discriminate. }
  specialize (IH Hs). destruct Hstep.
  - exact IH.
  - destruct (startGame_cases start target random now h) as [E | (s & t & E)];
      rewrite E in *; [exact IH | discriminate].
  - contradiction.
  - exact IH.
  - contradiction.
  - rewrite fetchSessionData_error. exact IH.
  - apply endGame_Val in H0. destruct H0 as (_ & _ & _ & -> & _). exact IH.
  - rewrite endGameCommentaryLanded_error. exact IH.
Qed.

(** In no state that a run of the page can reach is an error on display:
    the message sits in the view of a race that has not started, and
    [setError] is called only from the [catch] of [startGame], after the
    race has been put in progress. *)
Lemma error_is_never_shown h : reachable h -> errorShown h = None.
Proof.
  intros Hreach.
  assert (H : status (gameState h) = NotStarted -> error h = None).
  { induction Hreach as [|h h' _ IH Hstep]; [reflexivity|].
    exact (step_error_unset h h' Hstep IH). }
  unfold errorShown. destruct (config h); [|reflexivity].
  destruct (status (gameState h)); auto.
Qed.

(** C5. A setup that fails does not abort the race.  [startGame] has put
    the race in progress before it asks for the session; when the session
    cannot be started, the [catch] stores the message and [endGame('error')]
    returns before it touches the race, which stays in progress with
    [running] cleared; the message is not on display, since the page shows
    it in the view of a race that has not started. *)
Lemma failed_setup_leaves_race_in_progress :
  status (gameState raceConfigured) = NotStarted
  /\ status (gameState raceBegun) = InProgress
  /\ startGameResume (BBSSession (Exn "session could not start")) raceBegun = Val setupFailed
  /\ step raceBegun setupFailed
  /\ status (gameState setupFailed) = InProgress
  /\ running setupFailed = false
  /\ error setupFailed = Some "session could not start"%string
  /\ errorShown setupFailed = None.
Proof.
  do 3 (split; [reflexivity|]).
  split; [apply (step_resume (BBSSession (Exn "session could not start")));
          [discriminate | reflexivity]|].
  repeat split.
Qed.

End GuardFacts.

(** ** Instances *)

Lemma decideBestLink_total_witness :
  exists v,
    decideBestLink asciiCase (fun _ _ => Exn "request failed") sampleLinks
                   "Albert_Einstein" "Pizza" (3 # 4)
    = Val v
    /\ (v = None <-> sampleLinks = [])
    /\ (forall link, v = Some link -> In link sampleLinks).
Proof.
  apply (decideBestLink_total asciiCase (fun _ _ => Exn "request failed") sampleLinks
           "Albert_Einstein" "Pizza" (3 # 4)).
  - unfold Qle. simpl. lia.
  - reflexivity.
Defined.

(** The first link contains the answer and would do for tier 2; the third
    is returned. *)
Lemma exact_match_precedence_witness :
  exists best,
    decideBestLink asciiCase (fun _ _ => Val (Some " Albert Einstein "%string)) sampleLinks
                   "Albert_Einstein" "Pizza" (3 # 4)
    = Val (Some best)
    /\ exactMatch (Js.trim " Albert Einstein ") sampleLinks = Some best
    /\ In best sampleLinks
    /\ text best = Js.trim " Albert Einstein ".
Proof.
  apply (exact_match_precedence asciiCase (fun _ _ => Val (Some " Albert Einstein "%string))
           sampleLinks "Albert_Einstein" "Pizza" (3 # 4) " Albert Einstein "
           (mkLink "Albert Einstein" "/wiki/Albert_Einstein")).
  - reflexivity.
  - discriminate.
  - simpl. auto.
  - reflexivity.
Defined.


Lemma paths_never_repeat_a_url_witness :
  NoDup (map url (playerPath (gameState raceOver)))
  /\ NoDup (map url (aiPath (gameState raceOver))).
Proof.
  apply (paths_never_repeat_a_url raceOver). apply raceOver_reachable.
Defined.

(** * Further properties *)

(** ** Strings *)

Section StringFacts.

Lemma startsWith_refl (s : string) : Js.startsWith s s = true.
Proof.
  induction s as [|c s IH]; simpl; auto. now rewrite Ascii.eqb_refl.
Qed.

Lemma includes_startsWith (needle hay : string) :
  Js.startsWith needle hay = true -> Js.includes needle hay = true.
Proof. intros H. destruct hay; simpl; rewrite H; reflexivity. Qed.

Lemma includes_refl (s : string) : Js.includes s s = true.
Proof. apply includes_startsWith, startsWith_refl. Qed.

Lemma includes_cons (needle hay : string) (c : ascii) :
  Js.includes needle hay = true -> Js.includes needle (String c hay) = true.
Proof. intros H. simpl. rewrite H. apply orb_true_r. Qed.

Lemma includes_app_l (needle pre hay : string) :
  Js.includes needle hay = true -> Js.includes needle (pre ++ hay)%string = true.
Proof.
  intros H. induction pre as [|c pre IH]; simpl String.append; auto using includes_cons.
Qed.

Lemma includes_drop (needle hay : string) (k : nat) :
  Js.includes needle (Js.drop k hay) = true -> Js.includes needle hay = true.
Proof.
  revert hay. induction k as [|k IH]; intros hay H; [exact H|].
  destruct hay as [|c hay]; [exact H|]. apply includes_cons, IH, H.
Qed.

Lemma startsWith_app_drop (a b hay : string) :
  Js.startsWith (a ++ b)%string hay = true ->
  Js.startsWith b (Js.drop (String.length a) hay) = true.
Proof.
  revert hay. induction a as [|c a IH]; intros hay H; simpl in *; [exact H|].
  destruct hay as [|d hay]; [discriminate|].
  apply andb_true_iff in H. destruct H as [_ H]. apply IH, H.
Qed.

(** a text that holds [a ++ b] holds [b] *)
Lemma includes_suffix (a b hay : string) :
  Js.includes (a ++ b)%string hay = true -> Js.includes b hay = true.
Proof.
  induction hay as [|c hay IH]; intros H.
  - simpl in H. rewrite orb_false_r in H.
    apply startsWith_app_drop in H. eapply includes_drop, includes_startsWith, H.
  - simpl in H. apply orb_true_iff in H. destruct H as [H | H].
    + apply startsWith_app_drop in H. eapply includes_drop, includes_startsWith, H.
    + apply includes_cons, IH, H.
Qed.

Lemma map_chars_app (f : ascii -> ascii) (a b : string) :
  Js.map_chars f (a ++ b)%string = (Js.map_chars f a ++ Js.map_chars f b)%string.
Proof. induction a as [|c a IH]; simpl; [reflexivity | now rewrite IH]. Qed.

Lemma map_chars_map_chars (f g : ascii -> ascii) (s : string) :
  Js.map_chars f (Js.map_chars g s) = Js.map_chars (fun c => f (g c)) s.
Proof. induction s as [|c s IH]; simpl; [reflexivity | now rewrite IH]. Qed.

Lemma map_chars_ext (f g : ascii -> ascii) (s : string) :
  (forall c, f c = g c) -> Js.map_chars f s = Js.map_chars g s.
Proof. intros H. induction s as [|c s IH]; simpl; [reflexivity | now rewrite H, IH]. Qed.

(** [trimStart] takes the white space characters off the head one by one *)
Lemma trimStart_behindSpace (s : string) :
  Js.trimStart s
  = match Js.behindSpace s with
    | Some rest => Js.trimStart rest
    | None => s
    end.
Proof.
  destruct s as [|a [|b [|c r]]]; try reflexivity;
    cbn -[Js.is_space Js.is_space2 Js.is_space3].
  - destruct (Js.is_space a); reflexivity.
  - destruct (Js.is_space a); [reflexivity|]. destruct (Js.is_space2 a b); reflexivity.
  - destruct (Js.is_space a); [reflexivity|]. destruct (Js.is_space2 a b); [reflexivity|].
    destruct (Js.is_space3 a b c); reflexivity.
Qed.

Lemma behindSpace_shorter (s rest : string) :
  Js.behindSpace s = Some rest -> String.length rest < String.length s.
Proof.
  destruct s as [|a [|b [|c r]]]; cbn -[Js.is_space Js.is_space2 Js.is_space3];
    try discriminate;
    repeat match goal with
           | |- context [if ?t then _ else _] => destruct t
           end;
    intros H; try discriminate; injection H as <-; simpl; lia.
Qed.

(** what starts with white space still does when text is added behind it *)
Lemma behindSpace_app (s rest w : string) :
  Js.behindSpace s = Some rest -> Js.behindSpace (s ++ w) = Some (rest ++ w)%string.
Proof.
  destruct s as [|a [|b [|c r]]]; cbn -[Js.is_space Js.is_space2 Js.is_space3];
    try discriminate.
  - destruct (Js.is_space a); [|discriminate]. intros H. injection H as <-.
    destruct w as [|x [|y w]]; cbn -[Js.is_space Js.is_space2 Js.is_space3]; reflexivity.
  - destruct (Js.is_space a).
    + intros H. injection H as <-. reflexivity.
    + destruct (Js.is_space2 a b); [|discriminate]. intros H. injection H as <-.
      reflexivity.
  - destruct (Js.is_space a).
    + intros H. injection H as <-. reflexivity.
    + destruct (Js.is_space2 a b).
      * intros H. injection H as <-. reflexivity.
      * destruct (Js.is_space3 a b c); [|discriminate]. intros H. injection H as <-.
        reflexivity.
Qed.

Lemma trimStart_head_aux (n : nat) (s : string) :
  String.length s <= n -> Js.behindSpace (Js.trimStart s) = None.
Proof.
  revert s. induction n as [|n IH]; intros s Hlen.
  - destruct s; [reflexivity | simpl in Hlen; lia].
  - rewrite trimStart_behindSpace. destruct (Js.behindSpace s) as [rest|] eqn:E; [|exact E].
    apply IH. apply behindSpace_shorter in E. lia.
Qed.

(** a text that [trimStart] returns does not start with white space *)
Lemma trimStart_head (s : string) : Js.behindSpace (Js.trimStart s) = None.
Proof. exact (trimStart_head_aux (String.length s) s (Nat.le_refl _)). Qed.

Lemma trimStart_fixed (s : string) : Js.behindSpace s = None -> Js.trimStart s = s.
Proof. intros H. now rewrite trimStart_behindSpace, H. Qed.

Lemma trimStart_app_aux (n : nat) (s w : string) :
  String.length s <= n ->
  Js.trimStart s = ""%string -> Js.trimStart (s ++ w) = Js.trimStart w.
Proof.
  revert s. induction n as [|n IH]; intros s Hlen Hs.
  - destruct s; [reflexivity | simpl in Hlen; lia].
  - rewrite trimStart_behindSpace in Hs.
    destruct (Js.behindSpace s) as [rest|] eqn:E.
    + rewrite (trimStart_behindSpace (s ++ w)), (behindSpace_app _ _ w E).
      apply IH; [|exact Hs]. apply behindSpace_shorter in E. lia.
    + subst s. reflexivity.
Qed.

(** white space in front of a text goes with the white space of the text *)
Lemma trimStart_app (s w : string) :
  Js.trimStart s = ""%string -> Js.trimStart (s ++ w) = Js.trimStart w.
Proof. exact (trimStart_app_aux (String.length s) s w (Nat.le_refl _)). Qed.

Lemma blank_true_iff (s : string) : Js.blank s = true <-> Js.trimStart s = ""%string.
Proof. unfold Js.blank. apply String.eqb_eq. Qed.

Lemma trimEnd_cons (c : ascii) (s : string) :
  Js.trimEnd (String c s)
  = if Js.blank (String c s) then ""%string else String c (Js.trimEnd s).
Proof. reflexivity. Qed.

(** what [trimEnd] cuts off is white space *)
Lemma trimEnd_cut (s : string) :
  exists w, s = (Js.trimEnd s ++ w)%string /\ Js.trimStart w = ""%string.
Proof.
  induction s as [|c s (w & Hs & Hw)].
  - exists ""%string. split; reflexivity.
  - rewrite trimEnd_cons. destruct (Js.blank (String c s)) eqn:Hb.
    + exists (String c s). split; [reflexivity | now apply blank_true_iff].
    + exists w. split; [|exact Hw]. cbn [String.append]. now rewrite <- Hs.
Qed.

Lemma trimEnd_idempotent (s : string) : Js.trimEnd (Js.trimEnd s) = Js.trimEnd s.
Proof.
  induction s as [|c s IH]; [reflexivity|].
  rewrite trimEnd_cons. destruct (Js.blank (String c s)) eqn:Hb; [reflexivity|].
  rewrite trimEnd_cons, IH.
  destruct (Js.blank (String c (Js.trimEnd s))) eqn:Hb'; [|reflexivity].
  exfalso. destruct (trimEnd_cut s) as (w & Hs & Hw).
  apply blank_true_iff in Hb'.
  pose proof (trimStart_app _ w Hb') as Happ. cbn [String.append] in Happ.
  rewrite <- Hs, Hw in Happ. apply blank_true_iff in Happ. congruence.
Qed.

(** a text that does not start with white space does not after [trimEnd] *)
Lemma trimEnd_head (s : string) :
  Js.behindSpace s = None -> Js.behindSpace (Js.trimEnd s) = None.
Proof.
  intros H. destruct (Js.behindSpace (Js.trimEnd s)) as [rest|] eqn:E; [|reflexivity].
  destruct (trimEnd_cut s) as (w & Hs & _).
  apply (behindSpace_app _ _ w) in E. rewrite <- Hs in E. congruence.
Qed.

Lemma trim_idempotent (s : string) : Js.trim (Js.trim s) = Js.trim s.
Proof.
  unfold Js.trim.
  rewrite (trimStart_fixed (Js.trimEnd (Js.trimStart s))).
  - apply trimEnd_idempotent.
  - apply trimEnd_head, trimStart_head.
Qed.

Lemma truthy_true_iff (s : string) : Js.truthy s = true <-> s <> ""%string.
Proof.
  unfold Js.truthy. rewrite negb_true_iff. apply String.eqb_neq.
Qed.

End StringFacts.

(** ** Collecting and choosing links *)

Section LinkCollectionFacts.

Variable u : CaseMapping.
Variable openai : Reasoner.

Lemma orEmpty_trim_trimmed (x : option string) :
  Js.trim (orEmpty (option_map Js.trim x)) = orEmpty (option_map Js.trim x).
Proof.
  destruct x as [s|]; [|reflexivity]. unfold orEmpty, orElse. simpl.
  destruct (Js.truthy (Js.trim s)); [apply trim_idempotent | reflexivity].
Qed.

Lemma isArticleLink_fields (link : Link) :
  isArticleLink link = true ->
  Js.includes ":" (href link) = false
  /\ Js.includes "Main Page" (href link) = false
  /\ 1 < Js.length (text link)
  /\ isCitationMarker (text link) = false.
Proof.
  unfold isArticleLink. intros H.
  repeat (apply andb_true_iff in H; destruct H as [H ?]).
  repeat match goal with
         | Hn : negb _ = true |- _ => apply negb_true_iff in Hn
         end.
  repeat split; auto. now apply Nat.ltb_lt.
Qed.

Lemma getWikipediaLinks_anchor (document : list Anchor) (link : Link) :
  In link (getWikipediaLinks document) ->
  isArticleLink link = true
  /\ exists el h,
       In el document /\ link = linkOfAnchor el
       /\ hrefAttribute el = Some h /\ Js.startsWith "/wiki/" h = true.
Proof.
  unfold getWikipediaLinks, selectWikiAnchors. intros H.
  apply filter_In in H. destruct H as [H Hkeep]. split; [exact Hkeep|].
  apply in_map_iff in H. destruct H as (el & <- & Hel).
  apply filter_In in Hel. destruct Hel as [Hel Hsel].
  destruct (hrefAttribute el) as [h|] eqn:Hh; [|discriminate].
  exists el, h. auto.
Qed.

Lemma getWikipediaLinks_text (document : list Anchor) (link : Link) :
  In link (getWikipediaLinks document) ->
  Js.trim (text link) = text link /\ 1 < Js.length (text link).
Proof.
  intros H. apply getWikipediaLinks_anchor in H.
  destruct H as (Hkeep & el & h & _ & -> & _ & _).
  apply isArticleLink_fields in Hkeep. destruct Hkeep as (_ & _ & Hlen & _).
  split; [apply orEmpty_trim_trimmed | exact Hlen].
Qed.

(** X1. Every link that [getWikipediaLinks] returns comes from an anchor of
    the document, its target starts with /wiki/ and holds no colon, and its
    text is trimmed (of the white space of Unicode), has a length of two at
    least, in UTF-16 units as [length] counts, and is not a citation
    marker. *)
Theorem getWikipediaLinks_sound (document : list Anchor) (link : Link) :
  In link (getWikipediaLinks document) ->
  (exists el, In el document /\ link = linkOfAnchor el)
  /\ Js.startsWith "/wiki/" (href link) = true
  /\ Js.includes ":" (href link) = false
  /\ Js.trim (text link) = text link
  /\ 1 < Js.length (text link)
  /\ isCitationMarker (text link) = false.
Proof.
  intros H. pose proof (getWikipediaLinks_text _ _ H) as [Htrim Hlen].
  apply getWikipediaLinks_anchor in H. destruct H as (Hkeep & el & h & Hel & -> & Hh & Hw).
  apply isArticleLink_fields in Hkeep. destruct Hkeep as (Hcolon & _ & _ & Hcite).
  split; [eauto|]. split; [|auto].
  unfold linkOfAnchor, orEmpty, orElse. simpl. rewrite Hh.
  destruct h as [|c h]; [discriminate | exact Hw].
Qed.

Lemma getWikipediaLinks_sound_witness :
  Js.trim "Physics" = "Physics"%string /\ 1 < Js.length "Physics".
Proof.
  pose proof (getWikipediaLinks_sound
                [mkAnchor (Some " Physics "%string) (Some "/wiki/Physics"%string);
                 mkAnchor (Some "[12]"%string) (Some "/wiki/Pizza#cite_note-12"%string);
                 mkAnchor (Some "Talk"%string) (Some "/wiki/Talk:Pizza"%string)]
                (mkLink "Physics" "/wiki/Physics")) as H.
  destruct H as (_ & _ & _ & Htrim & Hlen & _).
  - simpl. auto.
  - split; [exact Htrim | exact Hlen].
Defined.

Lemma namespace_implies_colon (name hay : string) :
  Js.includes ":" hay = false -> Js.includes (name ++ ":")%string hay = false.
Proof.
  intros H. destruct (Js.includes (name ++ ":") hay) eqn:E; [|reflexivity].
  apply includes_suffix in E. congruence.
Qed.

(** X2. The tests of [getWikipediaLinks] for the namespaces File, Special,
    Wikipedia, Help, Template, Category, Portal and Talk never decide: a
    target with one of these prefixes holds a colon.  The links returned
    are those that pass the five other tests. *)
Theorem namespace_tests_are_redundant (document : list Anchor) :
  getWikipediaLinks document
  = filter (fun link =>
              Js.includes "/wiki/" (href link)
              && negb (Js.includes ":" (href link))
              && negb (Js.includes "Main Page" (href link))
              && (1 <? Js.length (text link))
              && negb (isCitationMarker (text link)))
           (map linkOfAnchor (selectWikiAnchors document)).
Proof.
  unfold getWikipediaLinks. apply filter_ext. intros link. unfold isArticleLink.
  destruct (Js.includes ":" (href link)) eqn:Hc.
  - now rewrite !andb_false_r.
  - pose proof (namespace_implies_colon "File" _ Hc) as N1.
    pose proof (namespace_implies_colon "Special" _ Hc) as N2.
    pose proof (namespace_implies_colon "Wikipedia" _ Hc) as N3.
    pose proof (namespace_implies_colon "Help" _ Hc) as N4.
    pose proof (namespace_implies_colon "Template" _ Hc) as N5.
    pose proof (namespace_implies_colon "Category" _ Hc) as N6.
    pose proof (namespace_implies_colon "Portal" _ Hc) as N7.
    pose proof (namespace_implies_colon "Talk" _ Hc) as N8.
    cbn [String.append] in N1, N2, N3, N4, N5, N6, N7, N8.
    rewrite N1, N2, N3, N4, N5, N6, N7, N8.
    simpl negb. now rewrite !andb_true_r.
Qed.

(** X3. [decideBestLink] on the links that [getWikipediaLinks] collected:
    when the content of the reply is, as it stands, the text of one of
    these links, the link returned has exactly this text. *)
Theorem answer_naming_a_collected_link (document : list Anchor)
  (targetPage0 currentPageTitle : string) (random : Q) (content : string) (link : Link) :
  askReasoner openai (getWikipediaLinks document) targetPage0 currentPageTitle
  = Val (Some content) ->
  In link (getWikipediaLinks document) ->
  text link = content ->
  exists best,
    decideBestLink u openai (getWikipediaLinks document) targetPage0 currentPageTitle random
    = Val (Some best)
    /\ In best (getWikipediaLinks document)
    /\ text best = content.
Proof.
  intros Hask Hin Htext.
  destruct (getWikipediaLinks_text _ _ Hin) as [Htrim Hlen].
  rewrite Htext in Htrim, Hlen.
  assert (Hne : Js.trim content <> ""%string).
  { rewrite Htrim. intros ->. simpl in Hlen. lia. }
  assert (Htext' : text link = Js.trim content) by congruence.
  destruct (exactMatch_finds _ _ _ Hin Htext') as (best & Hbest & Hb & Ht).
  exists best. split; [|split; [exact Hb | congruence]].
  unfold decideBestLink.
  destruct (getWikipediaLinks document) as [|l0 rest]; [contradiction|].
  replace (List.length (l0 :: rest) =? 0) with false by reflexivity.
  rewrite Hask, (matchAnswer_answered u _ _ Hne), Hbest. reflexivity.
Qed.

(** X4. The request to the model depends on the first 75 links only. *)
Theorem askReasoner_first_75 (links : list Link) (targetPage0 currentPageTitle : string) :
  askReasoner openai links targetPage0 currentPageTitle
  = askReasoner openai (firstn 75 links) targetPage0 currentPageTitle.
Proof.
  unfold askReasoner.
  assert (H : (if 75 <? List.length links then firstn 75 links else links)
              = (if 75 <? List.length (firstn 75 links)
                 then firstn 75 (firstn 75 links) else firstn 75 links)).
  { rewrite length_firstn.
    destruct (75 <? List.length links) eqn:E.
    - apply Nat.ltb_lt in E. rewrite Nat.min_l by lia. reflexivity.
    - apply Nat.ltb_ge in E. rewrite Nat.min_r by lia.
      replace (75 <? List.length links) with false by (symmetry; apply Nat.ltb_ge; lia).
      symmetry. apply firstn_all2. exact E. }
  now rewrite H.
Qed.

(** X5. When the request to the model fails and some link has a text
    longer than ten (in UTF-16 units, as [length] counts) or a text whose
    first unit upper-casing leaves as it is, [decideBestLink] returns such
    a link. *)
Theorem fallback_prefers_substantial_links (links : list Link)
  (targetPage0 currentPageTitle : string) (random : Q) (e : string) (candidate : Link) :
  askReasoner openai links targetPage0 currentPageTitle = Exn e ->
  (0 <= random)%Q -> (random < 1)%Q ->
  In candidate links ->
  (10 <? Js.length (text candidate))
  || match Js.charAt0 (text candidate) with
     | Some first => String.eqb (toUpperCase u first) first
     | None => true
     end
  = true ->
  exists best,
    decideBestLink u openai links targetPage0 currentPageTitle random = Val (Some best)
    /\ In best links
    /\ (10 <? Js.length (text best))
       || match Js.charAt0 (text best) with
          | Some first => String.eqb (toUpperCase u first) first
          | None => true
          end
       = true.
Proof.
  intros Hask H0 H1 Hin Hgood. unfold decideBestLink.
  destruct links as [|l0 rest]; [contradiction|].
  replace (List.length (l0 :: rest) =? 0) with false by reflexivity.
  rewrite Hask. simpl try_catch. unfold fallbackLink.
  set (links := l0 :: rest) in *. set (good := filter _ links).
  assert (Hg : In candidate good) by (apply filter_In; auto).
  assert (Hlen : 0 < List.length good) by (destruct good; [contradiction | simpl; lia]).
  replace (0 <? List.length good) with true by (symmetry; now apply Nat.ltb_lt).
  destruct (at_index_in_range good (floor_random random (List.length good)))
    as (best & -> & Hbest).
  { now apply floor_random_range. }
  exists best. apply filter_In in Hbest. tauto.
Qed.

End LinkCollectionFacts.

(** Neither 'düsseldorf', of ten characters, nor 'pizza' is long or
    capitalised: the link returned is one of the three others. *)
Lemma fallback_prefers_substantial_links_witness :
  exists best,
    decideBestLink asciiCase (fun _ _ => Exn "request failed")
                   (mkLink "düsseldorf" "/wiki/D%C3%BCsseldorf"
                    :: mkLink "pizza" "/wiki/Pizza" :: sampleLinks)
                   "Albert_Einstein" "Pizza" (9 # 10)
    = Val (Some best)
    /\ In best (mkLink "düsseldorf" "/wiki/D%C3%BCsseldorf"
                :: mkLink "pizza" "/wiki/Pizza" :: sampleLinks)
    /\ (10 <? Js.length (text best))
       || match Js.charAt0 (text best) with
          | Some first => String.eqb (toUpperCase asciiCase first) first
          | None => true
          end
       = true.
Proof.
  apply (fallback_prefers_substantial_links asciiCase (fun _ _ => Exn "request failed")
           (mkLink "düsseldorf" "/wiki/D%C3%BCsseldorf"
            :: mkLink "pizza" "/wiki/Pizza" :: sampleLinks)
           "Albert_Einstein" "Pizza" (9 # 10) "request failed" (mkLink "Italy" "/wiki/Italy")).
  - reflexivity.
  - unfold Qle. simpl. lia.
  - reflexivity.
  - simpl. auto.
  - reflexivity.
Defined.

Lemma answer_naming_a_collected_link_witness :
  exists best,
    decideBestLink asciiCase (fun _ _ => Val (Some "Physics"%string))
      (getWikipediaLinks
         [mkAnchor (Some "Physics (disambiguation)"%string) (Some "/wiki/Physics_(disambiguation)"%string);
          mkAnchor (Some " Physics "%string) (Some "/wiki/Physics"%string)])
      "Albert_Einstein" "Pizza" (1 # 10)
    = Val (Some best)
    /\ In best
         (getWikipediaLinks
            [mkAnchor (Some "Physics (disambiguation)"%string) (Some "/wiki/Physics_(disambiguation)"%string);
             mkAnchor (Some " Physics "%string) (Some "/wiki/Physics"%string)])
    /\ text best = "Physics"%string.
Proof.
  apply (answer_naming_a_collected_link asciiCase (fun _ _ => Val (Some "Physics"%string))
           [mkAnchor (Some "Physics (disambiguation)"%string) (Some "/wiki/Physics_(disambiguation)"%string);
            mkAnchor (Some " Physics "%string) (Some "/wiki/Physics"%string)]
           "Albert_Einstein" "Pizza" (1 # 10) "Physics" (mkLink "Physics" "/wiki/Physics")).
  - reflexivity.
  - simpl. auto.
  - reflexivity.
Defined.

(** ** The token tier and the empty answer *)

Section TokenTierFacts.

Variable u : CaseMapping.

Lemma Qlt_bool_true_iff (a b : Q) : Qlt_bool a b = true <-> (a < b)%Q.
Proof.
  unfold Qlt_bool. rewrite negb_true_iff. split.
  - intros H. apply Qnot_le_lt. intros Hle. apply Qle_bool_iff in Hle. congruence.
  - intros H. destruct (Qle_bool b a) eqn:E; [|reflexivity].
    apply Qle_bool_iff in E. exfalso. eapply Qlt_not_le; eauto.
Qed.

Lemma Qlt_bool_false_iff (a b : Q) : Qlt_bool a b = false <-> (b <= a)%Q.
Proof.
  unfold Qlt_bool. rewrite negb_false_iff. apply Qle_bool_iff.
Qed.

(** The entry in front after the sort is the first entry of the greatest
    score. *)
Lemma sortByScore_head (linkScores : list (Link * Q)) (y : Link * Q)
  (rest : list (Link * Q)) :
  sortByScore linkScores = y :: rest ->
  exists before after,
    linkScores = before ++ y :: after
    /\ (forall z, In z before -> (snd z < snd y)%Q)
    /\ (forall z, In z after -> (snd z <= snd y)%Q).
Proof.
  revert y rest. induction linkScores as [|x l IH]; intros y rest Hs; [discriminate|].
  simpl in Hs. destruct (sortByScore l) as [|y' r'] eqn:Hl.
  - assert (l = []).
    { apply (f_equal (@List.length _)) in Hl. rewrite sortByScore_length in Hl.
      now destruct l. }
    subst l. simpl in Hs. injection Hs as <- <-.
    exists [], []. repeat split; intros z [].
  - destruct (IH y' r' eq_refl) as (before & after & -> & Hb & Ha).
    simpl in Hs. destruct (Qlt_bool (snd x) (snd y')) eqn:Hx.
    + injection Hs as <- <-. apply Qlt_bool_true_iff in Hx.
      exists (x :: before), after. repeat split; auto.
      intros z [<- | Hz]; auto.
    + injection Hs as <- <-. apply Qlt_bool_false_iff in Hx.
      exists [], (before ++ y' :: after). repeat split; [intros z []|].
      intros z Hz. apply in_app_iff in Hz. destruct Hz as [Hz | [<- | Hz]].
      * apply Qlt_le_weak. eapply Qlt_le_trans; eauto.
      * exact Hx.
      * eapply Qle_trans; eauto.
Qed.

(** X6. The link that the token tier selects is the first link of the
    greatest score: every link before it in the list scores less, no link
    after it scores more, and its score exceeds one half. *)
Theorem tokenMatch_selects_first_best (bestLinkText : string) (links : list Link)
  (best : Link) :
  tokenMatch u bestLinkText links = Val (Some best) ->
  exists before after,
    links = before ++ best :: after
    /\ (forall link, In link before ->
                     (score u (answerWords u bestLinkText) link
                      < score u (answerWords u bestLinkText) best)%Q)
    /\ (forall link, In link after ->
                     (score u (answerWords u bestLinkText) link
                      <= score u (answerWords u bestLinkText) best)%Q)
    /\ (1 # 2 < score u (answerWords u bestLinkText) best)%Q.
Proof.
  unfold tokenMatch. intros H.
  destruct (sortByScore _) as [|[link s] rest] eqn:Hs; [discriminate|].
  destruct (Qlt_bool (1 # 2) s) eqn:Hhalf; [|discriminate].
  injection H as ->. apply Qlt_bool_true_iff in Hhalf.
  apply sortByScore_head in Hs. destruct Hs as (before & after & Heq & Hb & Ha).
  apply map_eq_app in Heq. destruct Heq as (lb & lrest & -> & <- & Hrest).
  apply map_eq_cons in Hrest. destruct Hrest as (l0 & la & -> & Hhead & <-).
  injection Hhead as -> <-.
  exists lb, la. repeat split; auto.
  - intros link Hin. apply (Hb (link, score u (answerWords u bestLinkText) link)).
    apply in_map_iff. eauto.
  - intros link Hin. apply (Ha (link, score u (answerWords u bestLinkText) link)).
    apply in_map_iff. eauto.
Qed.

Lemma trimStart_blank (s : string) :
  (forall c, In c (list_ascii_of_string s) -> Js.is_space c = true) ->
  Js.trimStart s = ""%string.
Proof.
  induction s as [|c s IH]; intros H; [reflexivity|].
  rewrite trimStart_behindSpace. cbn -[Js.is_space].
  rewrite (H c) by (simpl; auto). apply IH. intros d Hd. apply H. simpl. auto.
Qed.


End TokenTierFacts.

Lemma tokenMatch_selects_first_best_witness :
  exists before after,
    [mkLink "Albert Einstein Award" "/wiki/Albert_Einstein_Award";
     mkLink "Einstein family" "/wiki/Einstein_family";
     mkLink "Albert Einstein" "/wiki/Albert_Einstein"]
    = before ++ mkLink "Albert Einstein Award" "/wiki/Albert_Einstein_Award" :: after
    /\ (forall link, In link before ->
                     (score asciiCase (answerWords asciiCase "einstein albert") link
                      < score asciiCase (answerWords asciiCase "einstein albert")
                          (mkLink "Albert Einstein Award" "/wiki/Albert_Einstein_Award"))%Q)
    /\ (forall link, In link after ->
                     (score asciiCase (answerWords asciiCase "einstein albert") link
                      <= score asciiCase (answerWords asciiCase "einstein albert")
                           (mkLink "Albert Einstein Award" "/wiki/Albert_Einstein_Award"))%Q)
    /\ (1 # 2 < score asciiCase (answerWords asciiCase "einstein albert")
                  (mkLink "Albert Einstein Award" "/wiki/Albert_Einstein_Award"))%Q.
Proof.
  apply (tokenMatch_selects_first_best asciiCase "einstein albert"). reflexivity.
Defined.


(** ** The navigation loop of the agent *)

Section AgentLoopFacts.

Context {World : Type} (u : CaseMapping) (page : AgentScript.Page World).

Implicit Types (path : list string) (w : World).

Lemma removelast_shorter {A : Type} (xs : list A) :
  List.length (removelast xs) <= List.length xs.
Proof.
  induction xs as [|x xs IH]; simpl; [lia|]. destruct xs; simpl in *; lia.
Qed.

Lemma pushNewTitle_grows path w : grows_by_one path (AgentScript.pushNewTitle page path w).
Proof.
  unfold grows_by_one, AgentScript.pushNewTitle, AgentScript.bind, AgentScript.ret.
  destruct (AgentScript.waitForLoadState page w) as [[done|e] w1]; simpl; auto.
  destruct (AgentScript.title page w1) as [[t|e] w2]; simpl; auto.
  rewrite length_app. simpl. lia.
Qed.

Lemma backtrack_grows path w : grows_by_one path (AgentScript.backtrack page path w).
Proof.
  unfold grows_by_one, AgentScript.backtrack, AgentScript.bind, AgentScript.ret.
  destruct (AgentScript.goBack page w) as [[done|e] w1]; simpl; auto.
  pose proof (removelast_shorter path). lia.
Qed.

Lemma recovery_goes_on (targetPage0 : string) path w :
  exists path' w',
    AgentScript.recovery page targetPage0 path w = (Val (AgentScript.Next path'), w')
    /\ List.length path' <= S (List.length path).
Proof.
  unfold AgentScript.recovery, AgentScript.catch, AgentScript.bind at 1.
  destruct (AgentScript.act page _ w) as [[done|e] w1].
  - pose proof (pushNewTitle_grows path w1) as G. unfold grows_by_one in G.
    destruct (AgentScript.pushNewTitle page path w1) as [[[|p]|e] w2]; simpl in G.
    + contradiction.
    + eauto.
    + pose proof (backtrack_grows path w2) as B. unfold grows_by_one in B.
      destruct (AgentScript.backtrack page path w2) as [[[|p]|e'] w3]; simpl in B.
      * contradiction.
      * eauto.
      * unfold AgentScript.ret. eexists _, _. split; [reflexivity | lia].
  - pose proof (backtrack_grows path w1) as B. unfold grows_by_one in B.
    destruct (AgentScript.backtrack page path w1) as [[[|p]|e'] w3]; simpl in B.
    + contradiction.
    + eauto.
    + unfold AgentScript.ret. eexists _, _. split; [reflexivity | lia].
Qed.

Lemma tryBlock_grows (targetPage0 : string) path w :
  match fst (AgentScript.tryBlock u page targetPage0 path w) with
  | Val (AgentScript.Next path') => List.length path' <= S (List.length path)
  | _ => True
  end.
Proof.
  unfold AgentScript.tryBlock, AgentScript.bind at 1.
  destruct (AgentScript.title page w) as [[t|e] w1]; simpl; auto.
  destruct (_ || _); [simpl; auto|].
  unfold AgentScript.bind at 1.
  destruct (AgentScript.anchors page w1) as [[document|e] w2]; simpl; auto.
  destruct (List.length (getWikipediaLinks document) =? 0).
  { pose proof (backtrack_grows path w2) as B. unfold grows_by_one in B.
    destruct (fst (AgentScript.backtrack page path w2)) as [[|p]|e]; auto. }
  unfold AgentScript.bind at 1.
  destruct (AgentScript.decideBestLinkOn u page _ targetPage0 t w2) as [[[best|]|e] w3];
    simpl; auto.
  - unfold AgentScript.bind at 1.
    destruct (AgentScript.act page _ w3) as [[done|e] w4]; simpl; auto.
    pose proof (pushNewTitle_grows path w4) as G. unfold grows_by_one in G.
    destruct (fst (AgentScript.pushNewTitle page path w4)) as [[|p]|e]; auto.
  - pose proof (backtrack_grows path w3) as B. unfold grows_by_one in B.
    destruct (fst (AgentScript.backtrack page path w3)) as [[|p]|e]; auto.
Qed.

(** a pass never throws: it breaks, or goes on with a path at most one
    entry longer *)
Lemma pass_cases (targetPage0 : string) path w :
  (exists w', AgentScript.pass u page targetPage0 path w = (Val AgentScript.Reached, w'))
  \/ (exists path' w',
         AgentScript.pass u page targetPage0 path w = (Val (AgentScript.Next path'), w')
         /\ List.length path' <= S (List.length path)).
Proof.
  unfold AgentScript.pass, AgentScript.catch.
  pose proof (tryBlock_grows targetPage0 path w) as T.
  destruct (AgentScript.tryBlock u page targetPage0 path w) as [[[|p]|e] w1]; simpl in T.
  - left. eauto.
  - right. eauto.
  - right. apply recovery_goes_on.
Qed.

Lemma navigate_budget (targetPage0 : string) (maxAttempts : nat) path w :
  exists outcome w',
    AgentScript.navigate u page targetPage0 maxAttempts path w = (Val outcome, w')
    /\ List.length (AgentScript.finalPath outcome) + AgentScript.attemptsLeft outcome
       <= List.length path + maxAttempts
    /\ (AgentScript.targetReached outcome = false -> AgentScript.attemptsLeft outcome = 0)
    /\ (AgentScript.targetReached outcome = true -> 0 < AgentScript.attemptsLeft outcome).
Proof.
  revert path w. induction maxAttempts as [|n IH]; intros path w; simpl.
  - unfold AgentScript.ret. eexists _, _. split; [reflexivity|]. simpl.
    repeat split; [lia | discriminate].
  - destruct (pass_cases targetPage0 path w) as [(w' & ->) | (p & w' & -> & Hlen)].
    + eexists _, _. split; [reflexivity|]. simpl.
      repeat split; [lia | discriminate | lia].
    + destruct (IH p w') as (o & w'' & -> & Hb & Hf & Ht).
      eexists _, _. split; [reflexivity|]. repeat split; auto. lia.
Qed.


End AgentLoopFacts.

(** ** The race: winner, times and rating *)

Section VerdictFacts.

Implicit Types (prev gs : GameStateType) (h : Home).

Lemma determineWinner_by_paths (reason : string) prev :
  reason <> "ai-won"%string ->
  (determineWinner reason prev = Ai
   <-> aiReachedTarget prev = true
       /\ (playerReachedTarget prev = false
           \/ List.length (aiPath prev) < List.length (playerPath prev))).
Proof.
  intros Hr. unfold determineWinner.
  apply String.eqb_neq in Hr. rewrite Hr.
  destruct (aiReachedTarget prev), (playerReachedTarget prev); simpl.
  - destruct (List.length (playerPath prev) <=? List.length (aiPath prev)) eqn:E.
    + apply Nat.leb_le in E. split; [discriminate|]. intros (_ & [H | H]); [discriminate | lia].
    + apply Nat.leb_gt in E. split; auto.
  - split; auto.
  - split; [discriminate | intros (H & _); discriminate].
  - split; [discriminate | intros (H & _); discriminate].
Qed.

(** X9. When the race is not ended by the timer of the agent, the agent
    wins exactly when its path holds the target and either the path of the
    player does not, or the path of the player is the longer one. *)
Theorem agent_wins_only_through_the_target (reason : string) (now ended : Z) prev gs
  (request : EndGameRequest) (r : GameResult) :
  endGameUpdate reason now ended prev = Val (gs, request) ->
  result gs = Some r ->
  reason <> "ai-won"%string ->
  (winner r = Ai
   <-> aiReachedTarget prev = true
       /\ (playerReachedTarget prev = false
           \/ List.length (aiPath prev) < List.length (playerPath prev))).
Proof.
  intros Hu Hres Hr. apply endGameUpdate_Val in Hu.
  destruct Hu as (_ & _ & _ & _ & _ & _ & _ & r0 & Hr0 & Hw & _).
  rewrite Hres in Hr0. injection Hr0 as <-. rewrite Hw.
  now apply determineWinner_by_paths.
Qed.

Lemma agent_wins_only_through_the_target_witness :
  Player = Ai
  <-> aiReachedTarget (gameState playerArrived) = true
      /\ (playerReachedTarget (gameState playerArrived) = false
          \/ List.length (aiPath (gameState playerArrived))
             < List.length (playerPath (gameState playerArrived))).
Proof.
  apply (agent_wins_only_through_the_target "completed" 2600 2600 (gameState playerArrived)
           (gameState raceOver)
           (mkRequest Player 1 1 (1600 # 1000) (1000 # 1000)
                      ["Albert Einstein"%string] ["Albert Einstein"%string]
                      "Albert_Einstein")
           (mkResult Player 1 1 (1600 # 1000) (1000 # 1000) "generating commentary..." Mid)).
  - reflexivity.
  - reflexivity.
  - discriminate.
Defined.

Lemma last_in {A : Type} (xs : list A) (x : A) :
  last (map Some xs) None = Some x -> In x xs.
Proof.
  induction xs as [|y xs IH]; simpl; [discriminate|].
  destruct xs as [|z xs]; simpl in *.
  - intros H. injection H as ->. now left.
  - intros H. right. apply IH, H.
Qed.

Lemma aiTime_le_playerTime (now : Z) prev (t : Q) :
  (forall step, In step (aiPath prev) -> (timestamp step <= now)%Z) ->
  aiTimeAt now prev = Val t ->
  (t <= playerTimeAt now prev)%Q.
Proof.
  intros Hclock. unfold aiTimeAt, playerTimeAt.
  destruct (last (map Some (aiPath prev)) None) as [lastStep|] eqn:Hlast.
  - apply last_in in Hlast. specialize (Hclock _ Hlast).
    destruct (startTime prev) as [t0|]; [|discriminate].
    intros H. injection H as <-. unfold seconds, Qle. simpl. lia.
  - intros H. injection H as <-. apply Qle_refl.
Qed.

(** X10. With a clock that does not run backwards, the elapsed time of the
    agent in the result is never more than that of the player: the agent is
    timed at its last recorded step, the player when [endGame] runs. *)
Theorem agent_time_never_exceeds_player_time (reason : string) (now ended : Z) prev gs
  (request : EndGameRequest) (r : GameResult) :
  endGameUpdate reason now ended prev = Val (gs, request) ->
  result gs = Some r ->
  (forall step, In step (aiPath prev) -> (timestamp step <= now)%Z) ->
  (aiTime r <= playerTime r)%Q.
Proof.
  intros Hu Hres Hclock. apply endGameUpdate_Val in Hu.
  destruct Hu as (_ & _ & _ & _ & _ & _ & _ & r0 & Hr0 & _ & _ & _ & Hp & Ha & _).
  rewrite Hres in Hr0. injection Hr0 as <-. rewrite Hp.
  now apply aiTime_le_playerTime.
Qed.

Lemma agent_time_never_exceeds_player_time_witness :
  (1000 # 1000 <= 1600 # 1000)%Q.
Proof.
  apply (agent_time_never_exceeds_player_time "completed" 2600 2600
           (gameState playerArrived) (gameState raceOver)
           (mkRequest Player 1 1 (1600 # 1000) (1000 # 1000)
                      ["Albert Einstein"%string] ["Albert Einstein"%string]
                      "Albert_Einstein")
           (mkResult Player 1 1 (1600 # 1000) (1000 # 1000) "generating commentary..." Mid)).
  - reflexivity.
  - reflexivity.
  - intros step [<- | []]. simpl. lia.
Defined.

(** X11. The rating that the judge gives to the request of [endGame], with
    a clock that does not run backwards: a winning player is 'cracked' with
    fewer steps than the agent and 'mid' otherwise, also on equal steps,
    where the comparison of the times never favours the player; a winning
    agent rates the player 'cooked' when it is more than two steps shorter
    and 'mid' otherwise. *)
Theorem rating_of_the_race (reason : string) (now ended : Z) prev gs
  (request : EndGameRequest) :
  endGameUpdate reason now ended prev = Val (gs, request) ->
  (forall step, In step (aiPath prev) -> (timestamp step <= now)%Z) ->
  EndgameCommentary.ratingOf request
  = match determineWinner reason prev with
    | Player =>
        if List.length (playerPath prev) <? List.length (aiPath prev) then Cracked else Mid
    | Ai =>
        if List.length (aiPath prev) + 2 <? List.length (playerPath prev) then Cooked else Mid
    end.
Proof.
  intros Hu Hclock. unfold endGameUpdate in Hu.
  destruct (aiTimeAt now prev) as [t|e] eqn:Ht; [|discriminate].
  injection Hu as _ <-. unfold EndgameCommentary.ratingOf. simpl.
  destruct (determineWinner reason prev).
  - pose proof (aiTime_le_playerTime now prev t Hclock Ht) as Hle.
    apply Qlt_bool_false_iff in Hle. rewrite Hle, andb_false_r, orb_false_r. reflexivity.
  - destruct (List.length (aiPath prev) + 2 <? List.length (playerPath prev)) eqn:E.
    + apply Nat.ltb_lt in E.
      replace (_ <? _)%Z with true; [reflexivity|]. symmetry. apply Z.ltb_lt. lia.
    + apply Nat.ltb_ge in E.
      replace (_ <? _)%Z with false; [reflexivity|]. symmetry. apply Z.ltb_ge. lia.
Qed.

Lemma rating_of_the_race_witness :
  EndgameCommentary.ratingOf
    (mkRequest Player 1 1 (1600 # 1000) (1000 # 1000)
               ["Albert Einstein"%string] ["Albert Einstein"%string] "Albert_Einstein")
  = Mid.
Proof.
  apply (rating_of_the_race "completed" 2600 2600 (gameState playerArrived)
           (gameState raceOver)).
  - reflexivity.
  - intros step [<- | []]. simpl. lia.
Defined.

End VerdictFacts.

(** ** The race: starting it and recording steps *)

Section RaceFacts.

Implicit Types (prev gs : GameStateType) (h : Home).

(** X12. [startGame] on a page that has its configuration: the new race is
    in progress with both paths empty, no result and the clock as its start
    time.  It runs between the two pages given when both are given; if one
    of them is missing, neither is used and both come from one row of the
    table of pairs. *)
Theorem startGame_pages (start target : string) (random : Q) (now : Z) h (c : Config) :
  config h = Some c ->
  (0 <= random)%Q -> (random < 1)%Q ->
  let gs := gameState (startGame start target random now h) in
  status gs = InProgress
  /\ playerPath gs = [] /\ aiPath gs = []
  /\ result gs = None /\ endTime gs = None /\ startTime gs = Some now
  /\ (start <> ""%string -> target <> ""%string ->
      startPage gs = start /\ targetPage gs = target)
  /\ (start = ""%string \/ target = ""%string ->
      In (startPage gs, targetPage gs) wikiPairs).
Proof.
  intros Hc H0 H1. cbv zeta. unfold startGame. rewrite Hc.
  destruct (negb (Js.truthy start) || negb (Js.truthy target)) eqn:Hmissing.
  - destruct (at_index_in_range wikiPairs (floor_random random (List.length wikiPairs)))
      as ([s t] & -> & Hin); [apply floor_random_range; simpl; auto; lia|].
    simpl. do 6 (split; [reflexivity|]). split.
    + intros Hs Ht. apply truthy_true_iff in Hs, Ht.
      rewrite Hs, Ht in Hmissing. discriminate.
    + intros _. exact Hin.
  - simpl. do 6 (split; [reflexivity|]). split.
    + intros _ _. split; reflexivity.
    + apply orb_false_iff in Hmissing. destruct Hmissing as [Hs Ht].
      apply negb_false_iff in Hs, Ht.
      intros [-> | ->]; discriminate.
Qed.

Lemma startGame_pages_witness :
  In (startPage (gameState (startGame "Pizza" "" (7 # 10) 1000 raceConfigured)),
      targetPage (gameState (startGame "Pizza" "" (7 # 10) 1000 raceConfigured)))
     wikiPairs.
Proof.
  destruct (startGame_pages "Pizza" "" (7 # 10) 1000 raceConfigured sampleConfig)
    as (_ & _ & _ & _ & _ & _ & _ & Hpair).
  - reflexivity.
  - unfold Qle. simpl. lia.
  - reflexivity.
  - apply Hpair. right. reflexivity.
Defined.

(** X13. A page that the agent is seen on again changes nothing and sets no
    timer: after one call of the updater with a URL, a second call with
    this URL returns the state as it is, without a timer. *)
Theorem addToAiPath_idempotent (url0 title1 title2 : string) (now1 now2 : Z) prev :
  let once := fst (addToAiPath url0 title1 now1 prev) in
  addToAiPath url0 title2 now2 once = (once, false).
Proof.
  cbv zeta. unfold addToAiPath at 1. rewrite addToAiPath_aiPath.
  destruct (existsb _ (aiPath prev)) eqn:Hseen.
  - now rewrite Hseen.
  - now rewrite urlExists_after_append.
Qed.

(** X14. The two feeds do not disturb each other: recording a step of the
    player and then one of the agent leaves the same race state as
    recording them the other way round. *)
Theorem player_and_agent_steps_commute (url1 title1 url2 title2 : string) (now1 now2 : Z)
  prev :
  fst (addToAiPath url2 title2 now2 (fst (handlePlayerNavigation url1 title1 now1 prev)))
  = fst (handlePlayerNavigation url1 title1 now1 (fst (addToAiPath url2 title2 now2 prev))).
Proof.
  unfold addToAiPath, handlePlayerNavigation.
  destruct (existsb _ (playerPath prev)) eqn:Hp, (existsb _ (aiPath prev)) eqn:Ha;
    simpl; rewrite ?Hp, ?Ha; reflexivity.
Qed.

Lemma commentaryReceived_status (c : string) (rt : Rating) prev :
  result (commentaryReceived c rt prev)
  = option_map (fun r => mkResult (winner r) (playerClicks r) (aiClicks r) (playerTime r)
                                  (aiTime r) c rt)
               (result prev).
Proof.
  unfold commentaryReceived. destruct (result prev) eqn:E; simpl; [reflexivity | exact E].
Qed.

Lemma commentaryFailed_clicks (w : Winner) prev :
  match result prev, result (commentaryFailed w prev) with
  | Some r, Some r' => playerClicks r' = playerClicks r /\ aiClicks r' = aiClicks r
  | None, None => True
  | _, _ => False
  end.
Proof.
  unfold commentaryFailed. destruct (result prev) eqn:E; simpl; [auto | now rewrite E].
Qed.

Lemma endGameCommentaryLanded_result (i : nat) (response : Exc (string * Rating)) h :
  match result (gameState h), result (gameState (endGameCommentaryLanded i response h)) with
  | Some r, Some r' => playerClicks r' = playerClicks r /\ aiClicks r' = aiClicks r
  | None, None => True
  | _, _ => False
  end
  /\ endTime (gameState (endGameCommentaryLanded i response h)) = endTime (gameState h).
Proof.
  unfold endGameCommentaryLanded.
  destruct (nth_error _ i) as [request|].
  - destruct response as [[c rt]|e]; simpl.
    + rewrite commentaryReceived_status.
      pose proof (commentaryReceived_frame c rt (gameState h)) as F. cbv zeta in F.
      destruct F as (_ & _ & _ & _ & _ & _ & ->).
      destruct (result (gameState h)); simpl; auto.
    + pose proof (commentaryFailed_frame (reqWinner request) (gameState h)) as F.
      cbv zeta in F. destruct F as (_ & _ & _ & _ & _ & _ & ->).
      split; [apply commentaryFailed_clicks | reflexivity].
  - destruct (result (gameState h)); auto.
Qed.

Lemma endGame_outcomeKept (reason : string) (now ended : Z) h h' :
  endGame reason now ended h = Val h' ->
  outcomeKept (gameState h) -> outcomeKept (gameState h').
Proof.
  intros H Hkept. apply endGame_Val in H.
  destruct H as (_ & _ & _ & _ & _ & [-> | (rq & Hu)]); [exact Hkept|].
  apply endGameUpdate_Val in Hu.
  destruct Hu as (Hs & _ & _ & Hp & Ha & _ & He & r & Hr & _ & Hpc & Hac & _).
  split; [congruence|]. intros _. exists r. rewrite Hp, Ha, He.
  repeat split; auto; [discriminate | lia | lia].
Qed.

Lemma step_outcomeKept h h' :
  step h h' -> outcomeKept (gameState h) -> outcomeKept (gameState h').
Proof.
  intros Hstep Hkept. destruct Hstep.
  - exact Hkept.
  - destruct (startGame_cases start target random now h) as [-> | (s & t & ->)]; auto.
    split; [auto | discriminate].
  - apply startGameResume_Val in H0. destruct H0 as (-> & _). exact Hkept.
  - destruct Hkept as [Hopen Hdone].
    pose proof (handlePlayerNavigation_frame url0 title0 now (gameState h)) as F.
    cbv zeta in F. destruct F as (Fs & _ & _ & Fa & _ & Fe & Fr).
    cbn [gameState setGameState]. unfold outcomeKept. rewrite Fs, Fa, Fe, Fr.
    split; [exact Hopen|]. intros Hc. destruct (Hdone Hc) as (r & Hr & He & Hpc & Hac).
    exists r. repeat split; auto.
    rewrite handlePlayerNavigation_playerPath. destruct (existsb _ _); [exact Hpc|].
    rewrite length_app. lia.
  - eapply endGame_outcomeKept; eauto.
  - destruct Hkept as [Hopen Hdone].
    destruct (fetchSessionData_cases decodeURIComponent seen pages now h)
      as (_ & _ & [-> | (u0 & t & ->)]); [split; assumption|].
    pose proof (addToAiPath_frame u0 t now (gameState h)) as F.
    cbv zeta in F. destruct F as (Fs & _ & _ & Fp & _ & Fe & Fr).
    unfold outcomeKept. rewrite Fs, Fp, Fe, Fr.
    split; [exact Hopen|]. intros Hc. destruct (Hdone Hc) as (r & Hr & He & Hpc & Hac).
    exists r. repeat split; auto.
    rewrite addToAiPath_aiPath. destruct (existsb _ _); [exact Hac|].
    rewrite length_app. lia.
  - eapply endGame_outcomeKept; [exact H0 | exact Hkept].
  - destruct Hkept as [Hopen Hdone].
    destruct (endGameCommentaryLanded_frame i response h) as (Fs & Fp & Fa & _).
    destruct (endGameCommentaryLanded_result i response h) as (Hres & Fe).
    unfold outcomeKept. rewrite Fs, Fp, Fa, Fe. split.
    + intros Hc. destruct (Hopen Hc) as (Hn & He). rewrite Hn in Hres.
      destruct (result (gameState (endGameCommentaryLanded i response h)));
        [contradiction | auto].
    + intros Hc. destruct (Hdone Hc) as (r & Hr & He & Hpc & Hac). rewrite Hr in Hres.
      destruct (result (gameState (endGameCommentaryLanded i response h))) as [r'|];
        [|contradiction].
      destruct Hres as (E1 & E2). exists r'. rewrite E1, E2. auto.
Qed.

(** X15. In every state that a run of the page can reach, the race has a
    result and an end time exactly when it is completed, and the result of
    a completed race counts no more steps of the player, and no more steps
    of the agent, than their paths have: a step that is recorded after the
    end of the race is not counted. *)
Theorem outcome_present_iff_completed h :
  reachable h ->
  (status (gameState h) <> Completed ->
     result (gameState h) = None /\ endTime (gameState h) = None)
  /\ (status (gameState h) = Completed ->
        exists r, result (gameState h) = Some r /\ endTime (gameState h) <> None
                  /\ playerClicks r <= List.length (playerPath (gameState h))
                  /\ aiClicks r <= List.length (aiPath (gameState h))).
Proof.
  induction 1 as [|h h' _ IH Hstep].
  - simpl. split; [auto | discriminate].
  - exact (step_outcomeKept h h' Hstep IH).
Qed.

Lemma outcome_present_iff_completed_witness :
  exists r, result (gameState lateNavigation) = Some r
            /\ endTime (gameState lateNavigation) <> None
            /\ playerClicks r <= List.length (playerPath (gameState lateNavigation))
            /\ aiClicks r <= List.length (aiPath (gameState lateNavigation)).
Proof.
  apply (proj2 (outcome_present_iff_completed lateNavigation
                  (reachable_step raceOver lateNavigation raceOver_reachable
                     (step_navigation italyUrl "Italy" 2700 raceOver
                        ltac:(discriminate))))).
  reflexivity.
Defined.

End RaceFacts.

(** ** Watching the agent *)

Section PollFacts.

Implicit Types (prev gs : GameStateType) (h : Home).

Lemma fetchSessionData_adds_wikipedia (decode : string -> option string)
  (seen : option string) (pages : option (list SessionPage)) (now : Z) h :
  let h' := fetchSessionData decode seen pages now h in
  gameState h' = gameState h
  \/ exists url0 pageTitle0,
       Js.includes "wikipedia.org/wiki/" url0 = true
       /\ gameState h' = fst (addToAiPath url0 pageTitle0 now (gameState h)).
Proof.
  unfold fetchSessionData.
  destruct pages as [pages|]; [|cbv zeta; auto].
  destruct (last _ None) as [currentPage|]; [|cbv zeta; auto].
  destruct seen as [u|]; [destruct (String.eqb _ u); [cbv zeta; auto|]|];
    (destruct (Js.includes _ _) eqn:Hw; [|cbv zeta; simpl; auto]);
    cbv zeta; cbn [gameState setLastKnownUrl setAiWonTimers setGameState];
    right; eauto.
Qed.

Lemma step_aiPath_wikipedia h h' :
  step h h' ->
  Forall (fun s => Js.includes "wikipedia.org/wiki/" (url s) = true) (aiPath (gameState h)) ->
  Forall (fun s => Js.includes "wikipedia.org/wiki/" (url s) = true) (aiPath (gameState h')).
Proof.
  intros Hstep Hall. destruct Hstep.
  - exact Hall.
  - destruct (startGame_cases start target random now h) as [-> | (s & t & ->)];
      [exact Hall | constructor].
  - apply startGameResume_Val in H0. destruct H0 as (-> & _). exact Hall.
  - pose proof (handlePlayerNavigation_frame url0 title0 now (gameState h)) as F.
    cbv zeta in F. destruct F as (_ & _ & _ & F & _). simpl. now rewrite F.
  - apply endGame_Val in H0. destruct H0 as (_ & _ & _ & _ & _ & [-> | (rq & Hu)]); auto.
    apply endGameUpdate_Val in Hu. destruct Hu as (_ & _ & _ & _ & -> & _). exact Hall.
  - destruct (fetchSessionData_adds_wikipedia decodeURIComponent seen pages now h)
      as [-> | (u & t & Hw & ->)]; auto.
    rewrite addToAiPath_aiPath. destruct (existsb _ _); auto.
    apply Forall_app. split; auto.
  - apply endGame_Val in H0. simpl in H0.
    destruct H0 as (_ & _ & _ & _ & _ & [-> | (rq & Hu)]); auto.
    apply endGameUpdate_Val in Hu. destruct Hu as (_ & _ & _ & _ & -> & _). exact Hall.
  - destruct (endGameCommentaryLanded_frame i response h) as (_ & _ & -> & _). exact Hall.
Qed.

(** X16. In every state that a run of the page can reach, the URL of each
    step on the path of the agent holds the text wikipedia.org/wiki/.  This
    containment is all that the poll tests: the host of the URL is not
    looked at. *)
Theorem agent_path_holds_wikipedia_pages h (s : PlayerPath) :
  reachable h ->
  In s (aiPath (gameState h)) ->
  Js.includes "wikipedia.org/wiki/" (url s) = true.
Proof.
  intros Hreach. revert s. apply Forall_forall.
  induction Hreach as [|h h' _ IH Hstep]; [constructor|].
  exact (step_aiPath_wikipedia h h' Hstep IH).
Qed.

Lemma agent_path_holds_wikipedia_pages_witness :
  Js.includes "wikipedia.org/wiki/" einsteinUrl = true.
Proof.
  apply (agent_path_holds_wikipedia_pages raceOver
           (mkStep einsteinUrl "Albert Einstein" 2000) raceOver_reachable).
  simpl. auto.
Defined.

Lemma includes_char (a : ascii) (s : string) :
  Js.includes (String a "") s = true <-> In a (list_ascii_of_string s).
Proof.
  induction s as [|c s IH]; simpl.
  - split; [discriminate | contradiction].
  - rewrite orb_true_iff, IH, andb_true_r. split.
    + intros [H | H]; [left; symmetry; now apply Ascii.eqb_eq | now right].
    + intros [H | H]; [left; apply Ascii.eqb_eq; auto | now right].
Qed.

Lemma list_ascii_map_chars (f : ascii -> ascii) (s : string) :
  list_ascii_of_string (Js.map_chars f s) = map f (list_ascii_of_string s).
Proof. induction s as [|c s IH]; simpl; [reflexivity | now rewrite IH]. Qed.

Lemma takeWhile_keeps (p : ascii -> bool) (s : string) (c : ascii) :
  In c (list_ascii_of_string (takeWhile p s)) -> p c = true.
Proof.
  induction s as [|d s IH]; simpl; [contradiction|].
  destruct (p d) eqn:Hd; simpl; [|contradiction].
  intros [<- | H]; auto.
Qed.

Lemma not_includes_char (a : ascii) (s : string) :
  ~ In a (list_ascii_of_string s) -> Js.includes (String a "") s = false.
Proof.
  intros H. destruct (Js.includes (String a "") s) eqn:E; [|reflexivity].
  apply includes_char in E. contradiction.
Qed.

Lemma matchWikiPath_cons (d : ascii) (rest : string) :
  matchWikiPath (String d rest)
  = if Js.startsWith "/wiki/" (String d rest)
    then Some (takeWhile (fun c => negb (Ascii.eqb c "#" || Ascii.eqb c "?"))
                         (Js.drop 6 (String d rest)))
    else matchWikiPath rest.
Proof. reflexivity. Qed.

(** X17. [extractTitleFromUrl] gives 'Unknown Page', or what
    [decodeURIComponent] makes of a text that is not empty and holds no
    hash, no question mark and no underscore: the part of the URL behind
    /wiki/, cut at the fragment or the query, with spaces for underscores. *)
Theorem extractTitleFromUrl_shape (decodeURIComponent : string -> option string)
  (url0 : string) :
  extractTitleFromUrl decodeURIComponent url0 = "Unknown Page"%string
  \/ exists p,
       decodeURIComponent p = Some (extractTitleFromUrl decodeURIComponent url0)
       /\ p <> ""%string
       /\ Js.includes "#" p = false
       /\ Js.includes "?" p = false
       /\ Js.includes "_" p = false.
Proof.
  unfold extractTitleFromUrl.
  destruct (matchWikiPath url0) as [p|] eqn:Hm; [|now left].
  destruct (Js.truthy p) eqn:Hp; [|now left].
  destruct (decodeURIComponent (Js.underscores_to_spaces p)) as [t|] eqn:Hd; [|now left].
  right. exists (Js.underscores_to_spaces p). split; [exact Hd|].
  assert (Hkeep : forall c, In c (list_ascii_of_string p) ->
                            negb (Ascii.eqb c "#" || Ascii.eqb c "?") = true).
  { clear Hp Hd. revert p Hm. induction url0 as [|d rest IH]; intros p Hm.
    - simpl in Hm. discriminate.
    - rewrite matchWikiPath_cons in Hm.
      destruct (Js.startsWith "/wiki/" (String d rest)) eqn:Hs.
      + injection Hm as <-. intros c Hc. apply takeWhile_keeps in Hc. exact Hc.
      + apply IH, Hm. }
  split.
  { apply truthy_true_iff in Hp. destruct p; [congruence | discriminate]. }
  unfold Js.underscores_to_spaces.
  repeat split; apply not_includes_char; rewrite list_ascii_map_chars;
    intros Hin; apply in_map_iff in Hin; destruct Hin as (c & Hc & Hin).
  - specialize (Hkeep c Hin). destruct (Ascii.eqb c "_") eqn:E; [discriminate|].
    subst c. simpl in Hkeep. discriminate.
  - specialize (Hkeep c Hin). destruct (Ascii.eqb c "_") eqn:E; [discriminate|].
    subst c. simpl in Hkeep. discriminate.
  - destruct (Ascii.eqb c "_") eqn:E; [discriminate|].
    subst c. simpl in E. discriminate.
Qed.

End PollFacts.

(** ** The frame of the player *)

Section FrameFacts.

Implicit Types (h : Home).

(** between spaces and underscores, and up to case, a text without
    underscore comes back *)
Lemma title_char_round_trip (c : ascii) :
  c <> "_"%char ->
  (if Ascii.eqb (Js.lower_char (if Ascii.eqb c " " then "_"%char else c)) "_"
   then " "%char
   else Js.lower_char (if Ascii.eqb c " " then "_"%char else c))
  = Js.lower_char c.
Proof.
  intros H.
  destruct c as [b0 b1 b2 b3 b4 b5 b6 b7].
  destruct b0, b1, b2, b3, b4, b5, b6, b7;
    try reflexivity; exfalso; apply H; reflexivity.
Qed.

Lemma title_round_trip (dataTitle : string) :
  Js.includes "_" dataTitle = false ->
  Js.underscores_to_spaces (Js.toLowerCase (Js.spaces_to_underscores dataTitle))
  = Js.toLowerCase dataTitle.
Proof.
  unfold Js.underscores_to_spaces, Js.toLowerCase, Js.spaces_to_underscores.
  rewrite !map_chars_map_chars. intros Hno.
  induction dataTitle as [|c s IH]; [reflexivity|].
  simpl in Hno. apply orb_false_iff in Hno. destruct Hno as [Hc Hs].
  rewrite andb_true_r in Hc. simpl. rewrite IH by exact Hs. f_equal.
  apply title_char_round_trip. intros ->. discriminate.
Qed.

(** X18. The frame reports every arrival that [endGame] credits to the
    player: when the title of a page has no underscore and is, with
    underscores for its spaces, the target page, showing this page in the
    frame calls [onTargetReached]. *)
Theorem frame_reports_exact_arrival (startPage0 targetPage0 : string) (initial : bool)
  (url0 dataTitle : string) :
  Js.includes "_" dataTitle = false ->
  Js.spaces_to_underscores dataTitle = targetPage0 ->
  WikiFrame.targetReached
    (WikiFrame.contentShown startPage0 targetPage0 initial url0 dataTitle) = true.
Proof.
  intros Hno <-. unfold WikiFrame.contentShown. simpl.
  rewrite (title_round_trip _ Hno), includes_refl. apply orb_true_r.
Qed.

Lemma frame_reports_exact_arrival_witness :
  WikiFrame.targetReached
    (WikiFrame.contentShown "Pizza" "Albert_Einstein" false
       "https://en.wikipedia.org/wiki/Einstein" "Albert Einstein") = true.
Proof.
  apply (frame_reports_exact_arrival "Pizza" "Albert_Einstein" false
           "https://en.wikipedia.org/wiki/Einstein" "Albert Einstein");
    reflexivity.
Defined.



End FrameFacts.

(** ** The routes *)

Section RouteFacts.

(** X20. The proxy asks nothing of a host other than en.wikipedia.org:
    for a URL that is missing or does not start with
    https://en.wikipedia.org/ the answer has status 400 and is the same
    whatever [fetch] would do. *)
Theorem proxy_refuses_other_hosts (fetch1 fetch2 : string -> Exc ProxyRoute.Response)
  (url0 : option string) :
  (forall u, url0 = Some u -> Js.startsWith "https://en.wikipedia.org/" u = false) ->
  ProxyRoute.GET fetch1 url0 = ProxyRoute.GET fetch2 url0
  /\ ProxyRoute.replyStatus (ProxyRoute.GET fetch1 url0) = 400.
Proof.
  intros H. unfold ProxyRoute.GET. destruct url0 as [u|]; [|split; reflexivity].
  destruct (negb (Js.truthy u)); [split; reflexivity|].
  rewrite (H u eq_refl). split; reflexivity.
Qed.

Lemma proxy_refuses_other_hosts_witness :
  ProxyRoute.GET (fun _ => Exn "offline") (Some "https://example.org/wiki/Pizza"%string)
  = ProxyRoute.GET (fun _ => Val (ProxyRoute.mkResponse true 200 "OK" (Val "<html>"%string)))
                   (Some "https://example.org/wiki/Pizza"%string)
  /\ ProxyRoute.replyStatus
       (ProxyRoute.GET (fun _ => Exn "offline") (Some "https://example.org/wiki/Pizza"%string))
     = 400.
Proof.
  apply (proxy_refuses_other_hosts (fun _ => Exn "offline")
           (fun _ => Val (ProxyRoute.mkResponse true 200 "OK" (Val "<html>"%string)))
           (Some "https://example.org/wiki/Pizza"%string)).
  intros u Hu. injection Hu as <-. reflexivity.
Defined.

(** X21. When the proxy answers with a page, the page is the one asked for,
    under https://en.wikipedia.org/, [fetch] has answered well for this
    very URL, and the html is passed on as it was read. *)
Theorem proxy_page_is_the_page_fetched (fetch : string -> Exc ProxyRoute.Response)
  (url0 : option string) (s : nat) (u t html : string) :
  ProxyRoute.GET fetch url0 = ProxyRoute.mkReply s (ProxyRoute.PageBody u t html) ->
  url0 = Some u
  /\ Js.startsWith "https://en.wikipedia.org/" u = true
  /\ s = 200
  /\ t = ProxyRoute.titleOf html
  /\ exists response,
       fetch u = Val response
       /\ ProxyRoute.ok response = true
       /\ ProxyRoute.text response = Val html.
Proof.
  unfold ProxyRoute.GET. destruct url0 as [u0|]; [|discriminate].
  destruct (negb (Js.truthy u0)); [discriminate|].
  destruct (Js.startsWith "https://en.wikipedia.org/" u0) eqn:Hw; simpl; [|discriminate].
  destruct (fetch u0) as [response|e] eqn:Hf; [|discriminate].
  destruct (ProxyRoute.ok response) eqn:Hok; cbn [negb].
  2: { unfold ProxyRoute.jsonReply.
       destruct (_ || _); [discriminate|]. destruct (_ || _); discriminate. }
  destruct (ProxyRoute.text response) as [body|e] eqn:Hb; [|discriminate].
  intros H. injection H as <- <- <- <-. repeat split; auto. eauto.
Qed.

Lemma proxy_page_is_the_page_fetched_witness :
  "Pizza"%string
  = ProxyRoute.titleOf "<head><title>Pizza - Wikipedia</title></head>".
Proof.
  destruct (proxy_page_is_the_page_fetched
              (fun _ => Val (ProxyRoute.mkResponse true 200 "OK"
                               (Val "<head><title>Pizza - Wikipedia</title></head>"%string)))
              (Some "https://en.wikipedia.org/wiki/Pizza"%string) 200
              "https://en.wikipedia.org/wiki/Pizza" "Pizza"
              "<head><title>Pizza - Wikipedia</title></head>" eq_refl)
    as (_ & _ & _ & Ht & _).
  exact Ht.
Defined.

End RouteFacts.

(** ** The search of the start form *)

Section SearchFacts.

Variable encodeURIComponent : string -> Exc string.

Lemma resultsFrom_missing_url (index : nat) (titles0 descriptions0 urls0 : list string) :
  index <= List.length urls0 ->
  List.length urls0 < index + List.length titles0 ->
  exists e, WikiSearch.resultsFrom index titles0 descriptions0 urls0 = Exn e.
Proof.
  revert index. induction titles0 as [|t rest IH]; intros index Hi Hlen; simpl in *.
  - lia.
  - destruct (nth_error urls0 index) as [u|] eqn:Hu; [|eauto].
    assert (index < List.length urls0) by (apply nth_error_Some; congruence).
    destruct (IH (S index)) as (e & ->); [lia | lia | eauto].
Qed.

Lemma resultsFrom_complete (index : nat) (titles0 descriptions0 urls0 : list string) :
  index + List.length titles0 <= List.length urls0 ->
  exists rs,
    WikiSearch.resultsFrom index titles0 descriptions0 urls0 = Val rs
    /\ List.length rs = List.length titles0
    /\ forall i r,
         nth_error rs i = Some r ->
         nth_error titles0 i = Some (WikiSearch.title r)
         /\ WikiSearch.description r = nth_error descriptions0 (index + i)
         /\ exists u, nth_error urls0 (index + i) = Some u
                      /\ WikiSearch.pageName r = currentPagePathOf u.
Proof.
  revert index. induction titles0 as [|t rest IH]; intros index Hlen; simpl in *.
  - exists []. split; [reflexivity|]. split; [reflexivity|].
    intros [|i] r H; discriminate.
  - destruct (nth_error urls0 index) as [u|] eqn:Hu;
      [|apply nth_error_None in Hu; lia].
    destruct (IH (S index)) as (rs & -> & Hl & Hrs); [lia|].
    eexists. split; [reflexivity|]. split; [simpl; now rewrite Hl|].
    intros [|i] r H; simpl in H.
    + injection H as <-. simpl. rewrite Nat.add_0_r. repeat split; eauto.
    + destruct (Hrs i r H) as (Ht & Hd & u' & Hu' & Hp).
      rewrite <- Nat.add_succ_comm. simpl. repeat split; eauto.
Qed.

(** X22. A query that is missing, or whose length once trimmed (of the
    white space of Unicode; in UTF-16 units, as [length] counts) is less
    than two, is answered with no result and status 200 without any request
    to Wikipedia. *)
Theorem short_query_is_not_searched (fetch1 fetch2 : string -> Exc WikiSearch.Response)
  (q : option string) :
  (forall query, q = Some query -> Js.length (Js.trim query) < 2) ->
  WikiSearch.GET encodeURIComponent fetch1 q = WikiSearch.mkReply 200 None []
  /\ WikiSearch.GET encodeURIComponent fetch2 q = WikiSearch.mkReply 200 None [].
Proof.
  intros H. unfold WikiSearch.GET. destruct q as [query|]; [|split; reflexivity].
  specialize (H query eq_refl). apply Nat.ltb_lt in H. rewrite H, orb_true_r.
  split; reflexivity.
Qed.

(** X23. A search, for a query of length two at least once trimmed, that
    Wikipedia answers: with a URL for every title, the route returns one
    result per title, in order, whose page name is the part of its URL
    behind /wiki/; when a title comes without URL the whole search fails,
    with status 500 and no result. *)
Theorem search_results_follow_titles (fetch : string -> Exc WikiSearch.Response)
  (query encoded : string) (response : WikiSearch.Response) (data : WikiSearch.OpenSearch) :
  2 <= Js.length (Js.trim query) ->
  encodeURIComponent query = Val encoded ->
  fetch ("https://en.wikipedia.org/w/api.php?action=opensearch&search="
         ++ encoded ++ "&limit=5&namespace=0&format=json&origin=*")%string
  = Val response ->
  WikiSearch.ok response = true ->
  WikiSearch.json response = Val data ->
  let titles0 := WikiSearch.orNone (WikiSearch.titles data) in
  let urls0 := WikiSearch.orNone (WikiSearch.urls data) in
  let reply := WikiSearch.GET encodeURIComponent fetch (Some query) in
  (List.length urls0 < List.length titles0 ->
   reply = WikiSearch.mkReply 500 (Some "Failed to fetch search results"%string) [])
  /\ (List.length titles0 <= List.length urls0 ->
      WikiSearch.replyStatus reply = 200
      /\ WikiSearch.error reply = None
      /\ List.length (WikiSearch.results reply) = List.length titles0
      /\ forall i r,
           nth_error (WikiSearch.results reply) i = Some r ->
           nth_error titles0 i = Some (WikiSearch.title r)
           /\ exists u, nth_error urls0 i = Some u
                        /\ WikiSearch.pageName r = currentPagePathOf u).
Proof.
  intros Hlen Henc Hfetch Hok Hjson. cbv zeta. unfold WikiSearch.GET.
  assert (Hq : Js.truthy query = true).
  { apply truthy_true_iff. intros ->. simpl in Hlen. lia. }
  rewrite Hq. replace (Js.length (Js.trim query) <? 2) with false
    by (symmetry; apply Nat.ltb_ge; exact Hlen).
  cbn [negb orb]. rewrite Henc, Hfetch, Hok, Hjson. cbn [negb]. split.
  - intros Hmiss.
    destruct (resultsFrom_missing_url 0 (WikiSearch.orNone (WikiSearch.titles data))
                (WikiSearch.orNone (WikiSearch.descriptions data))
                (WikiSearch.orNone (WikiSearch.urls data)))
      as (e & ->); [simpl; lia | simpl; lia | reflexivity].
  - intros Hall.
    destruct (resultsFrom_complete 0 (WikiSearch.orNone (WikiSearch.titles data))
                (WikiSearch.orNone (WikiSearch.descriptions data))
                (WikiSearch.orNone (WikiSearch.urls data)))
      as (rs & -> & Hl & Hrs); [simpl; lia|].
    simpl. repeat split; auto.
    + apply (Hrs i r H).
    + destruct (Hrs i r H) as (_ & _ & Hu). exact Hu.
Qed.

End SearchFacts.

(** the query is one letter of two bytes between spaces *)
Lemma short_query_is_not_searched_witness :
  WikiSearch.GET (fun s => Val s) (fun _ => Exn "offline") (Some " é "%string)
  = WikiSearch.mkReply 200 None []
  /\ WikiSearch.GET (fun s => Val s) (fun _ => Exn "offline") (Some " é "%string)
     = WikiSearch.mkReply 200 None [].
Proof.
  apply (short_query_is_not_searched (fun s => Val s) (fun _ => Exn "offline")
           (fun _ => Exn "offline") (Some " é "%string)).
  intros query Hq. injection Hq as <-. vm_compute. lia.
Defined.

Lemma search_results_follow_titles_witness :
  WikiSearch.GET (fun s => Val s)
    (fun _ => Val (WikiSearch.mkResponse true 200
                     (Val (WikiSearch.mkOpenSearch
                             (Some ["Pizza"; "Pizza Hut"]%string) None
                             (Some ["https://en.wikipedia.org/wiki/Pizza"]%string)))))
    (Some "pizza"%string)
  = WikiSearch.mkReply 500 (Some "Failed to fetch search results"%string) [].
Proof.
  apply (proj1 (search_results_follow_titles (fun s => Val s)
                  (fun _ => Val (WikiSearch.mkResponse true 200
                                   (Val (WikiSearch.mkOpenSearch
                                           (Some ["Pizza"; "Pizza Hut"]%string) None
                                           (Some ["https://en.wikipedia.org/wiki/Pizza"]%string)))))
                  "pizza" "pizza"
                  (WikiSearch.mkResponse true 200
                     (Val (WikiSearch.mkOpenSearch
                             (Some ["Pizza"; "Pizza Hut"]%string) None
                             (Some ["https://en.wikipedia.org/wiki/Pizza"]%string))))
                  (WikiSearch.mkOpenSearch
                     (Some ["Pizza"; "Pizza Hut"]%string) None
                     (Some ["https://en.wikipedia.org/wiki/Pizza"]%string))
                  ltac:(simpl; lia) eq_refl eq_refl eq_refl eq_refl)).
  simpl. lia.
Defined.
